(** * audit-kit: a shallow embedding of the audit pipeline and its backends

    The development follows the layout of the Go package [audit]:
    [types.go] (records), [storage.go] (the storage contract and the query
    filter), [file.go], [redis.go], [database.go] (the three backends),
    [factory.go] (fan-out), [writer.go] (the asynchronous writer) and
    [logger.go] (the facade).

    Conventions.
    - Go's [int] and [int64] are [Z]; where the source adds such numbers the
      64-bit wrap-around is written out ([wrap64]).
    - Go's [string] and [[]byte] are [string] (a list of bytes).
    - A Go [error] is its message; [nil] is [None].
    - A pointer to a struct that the callee updates in place is modelled by
      passing the struct in and the updated struct out.
    - Everything outside the package (the operating system, the Redis
      server, the SQL driver, [encoding/json], [bufio]) is modelled by the
      part of its documented behaviour the package relies on. *)

From Stdlib Require Import ZArith List String Ascii Bool Lia.
From Stdlib Require Import DecimalString DecimalPos DecimalZ.
From Stdlib Require Import Permutation Sorted.
Import ListNotations.

Local Open Scope string_scope.
Local Open Scope Z_scope.

(* ================================================================= *)
(** ** Go preliminaries *)

(** An [error] value: its message. *)
Definition error := string.

(** How a call ends: it returns, or the goroutine panics. *)
Inductive outcome (A : Type) : Type :=
| Returns (a : A)
| Panics (msg : string).
Arguments Returns {A} a.
Arguments Panics {A} msg.

(** A [context.Context], as far as the package looks at it: whether
    [ctx.Done()] is closed. *)
Record ctx_t := { ctx_done : bool }.

Definition context_Background : ctx_t := {| ctx_done := false |}.
Definition context_Canceled : error := "context canceled".

(** [ctx.Err()] *)
Definition ctx_Err (ctx : ctx_t) : option error :=
  if ctx_done ctx then Some context_Canceled else None.

(** Two's-complement wrap-around of a 64-bit signed integer. *)
Definition wrap64 (z : Z) : Z := (z + 2 ^ 63) mod 2 ^ 64 - 2 ^ 63.

(** [len(s)] as a Go [int]. *)
Definition len (s : string) : Z := Z.of_nat (String.length s).

(** [len(l)] of a slice. *)
Definition llen {A : Type} (l : list A) : Z := Z.of_nat (List.length l).

(** [fmt.Sprintf("%d", z)]: the decimal digits of [z], most significant
    first, after a minus sign when [z] is negative. *)
Definition itoa (z : Z) : string := NilZero.string_of_int (Z.to_int z).

(* ================================================================= *)
(** ** types.go *)

(** A value of a metadata map ([interface{}]), for the scalar cases. *)
Inductive Any : Type :=
| AnyNil
| AnyBool (b : bool)
| AnyInt (n : Z)
| AnyString (s : string).

(** [type Record struct].  [EventType] and [Result] are Go string types.
    [Metadata] is [None] for a nil map. *)
Record AuditRecord := {
  EventType : string;
  EventID : string;
  UserID : string;
  ChallengeID : string;
  SessionID : string;
  Channel : string;
  Destination : string;
  Purpose : string;
  Resource : string;
  Result : string;
  Reason : string;
  Provider : string;
  ProviderMessageID : string;
  IP : string;
  UserAgent : string;
  RequestID : string;
  TraceID : string;
  Timestamp : Z;
  DurationMS : Z;
  Metadata : option (list (string * Any))
}.

Definition EventLoginSuccess : string := "login_success".
Definition EventLoginFailed : string := "login_failed".
Definition EventLogout : string := "logout".
Definition ResultSuccess : string := "success".
Definition ResultFailure : string := "failure".
Definition ResultPending : string := "pending".

(** [NewRecord(eventType, result)], with [now] the value of
    [time.Now().Unix()]. *)
Definition NewRecord (now : Z) (eventType result : string) : AuditRecord :=
  {| EventType := eventType; EventID := EmptyString; UserID := EmptyString;
     ChallengeID := EmptyString; SessionID := EmptyString;
     Channel := EmptyString; Destination := EmptyString;
     Purpose := EmptyString; Resource := EmptyString; Result := result;
     Reason := EmptyString; Provider := EmptyString;
     ProviderMessageID := EmptyString; IP := EmptyString;
     UserAgent := EmptyString; RequestID := EmptyString;
     TraceID := EmptyString; Timestamp := now; DurationMS := 0;
     Metadata := None |}.

(** [r.SetTimestamp(ts)] *)
Definition SetTimestamp (ts : Z) (r : AuditRecord) : AuditRecord :=
  {| EventType := EventType r; EventID := EventID r; UserID := UserID r;
     ChallengeID := ChallengeID r; SessionID := SessionID r;
     Channel := Channel r; Destination := Destination r;
     Purpose := Purpose r; Resource := Resource r; Result := Result r;
     Reason := Reason r; Provider := Provider r;
     ProviderMessageID := ProviderMessageID r; IP := IP r;
     UserAgent := UserAgent r; RequestID := RequestID r;
     TraceID := TraceID r; Timestamp := ts; DurationMS := DurationMS r;
     Metadata := Metadata r |}.

(** [r.WithDestination(d)] *)
Definition WithDestination (d : string) (r : AuditRecord) : AuditRecord :=
  {| EventType := EventType r; EventID := EventID r; UserID := UserID r;
     ChallengeID := ChallengeID r; SessionID := SessionID r;
     Channel := Channel r; Destination := d;
     Purpose := Purpose r; Resource := Resource r; Result := Result r;
     Reason := Reason r; Provider := Provider r;
     ProviderMessageID := ProviderMessageID r; IP := IP r;
     UserAgent := UserAgent r; RequestID := RequestID r;
     TraceID := TraceID r; Timestamp := Timestamp r;
     DurationMS := DurationMS r; Metadata := Metadata r |}.

(** [r.WithUserID(u)] *)
Definition WithUserID (u : string) (r : AuditRecord) : AuditRecord :=
  {| EventType := EventType r; EventID := EventID r; UserID := u;
     ChallengeID := ChallengeID r; SessionID := SessionID r;
     Channel := Channel r; Destination := Destination r;
     Purpose := Purpose r; Resource := Resource r; Result := Result r;
     Reason := Reason r; Provider := Provider r;
     ProviderMessageID := ProviderMessageID r; IP := IP r;
     UserAgent := UserAgent r; RequestID := RequestID r;
     TraceID := TraceID r; Timestamp := Timestamp r;
     DurationMS := DurationMS r; Metadata := Metadata r |}.

(** Modelled from the spec: the constant [MaxRecordJSONSize] is used by
    [file.go] and is declared in a file that is not part of the sources at
    hand; the specification gives the per-line ceiling as 1 MiB. *)
Definition MaxRecordJSONSize : Z := 1048576.

(** [encoding/json] on records: [json.Marshal(record)] and
    [json.Unmarshal(data, &record)] ([None] when decoding fails).  The
    package is outside the repository; the backends are parametric in it. *)
Class JSON := {
  json_Marshal : AuditRecord -> string;
  json_Unmarshal : string -> option AuditRecord
}.

(* ================================================================= *)
(** ** storage.go *)

(** [type QueryFilter struct].  The equality and range fields carry a [q]
    in front of the source's name, which the record type already uses. *)
Record QueryFilter := {
  qEventType : string;
  qUserID : string;
  qChallengeID : string;
  qSessionID : string;
  qChannel : string;
  qResult : string;
  qStartTime : Z;
  qEndTime : Z;
  qIP : string;
  Limit : Z;
  Offset : Z
}.

Definition set_Limit (n : Z) (f : QueryFilter) : QueryFilter :=
  {| qEventType := qEventType f; qUserID := qUserID f;
     qChallengeID := qChallengeID f; qSessionID := qSessionID f;
     qChannel := qChannel f; qResult := qResult f;
     qStartTime := qStartTime f; qEndTime := qEndTime f; qIP := qIP f;
     Limit := n; Offset := Offset f |}.

Definition set_Offset (n : Z) (f : QueryFilter) : QueryFilter :=
  {| qEventType := qEventType f; qUserID := qUserID f;
     qChallengeID := qChallengeID f; qSessionID := qSessionID f;
     qChannel := qChannel f; qResult := qResult f;
     qStartTime := qStartTime f; qEndTime := qEndTime f; qIP := qIP f;
     Limit := Limit f; Offset := n |}.

(** [DefaultQueryFilter()] *)
Definition DefaultQueryFilter : QueryFilter :=
  {| qEventType := EmptyString; qUserID := EmptyString;
     qChallengeID := EmptyString; qSessionID := EmptyString;
     qChannel := EmptyString; qResult := EmptyString;
     qStartTime := 0; qEndTime := 0; qIP := EmptyString;
     Limit := 100; Offset := 0 |}.

(** [f.WithLimit(limit)] *)
Definition WithLimit (limit : Z) (f : QueryFilter) : QueryFilter :=
  set_Limit limit f.

(** [f.WithOffset(offset)] *)
Definition WithOffset (offset : Z) (f : QueryFilter) : QueryFilter :=
  set_Offset offset f.

(** [f.Normalize()]: three assignments in sequence, each under its
    guard. *)
Definition Normalize (f : QueryFilter) : QueryFilter :=
  let f1 := if Limit f <=? 0 then set_Limit 100 f else f in
  let f2 := if Limit f1 >? 1000 then set_Limit 1000 f1 else f1 in
  if Offset f2 <? 0 then set_Offset 0 f2 else f2.

(** [type Storage interface].  A backend is a state of type [S]; a method
    takes the state and returns the new one beside its results.  [Query]
    takes [None] for a nil filter. *)
Class Storage (S : Type) := {
  Write : ctx_t -> AuditRecord -> S -> option error * S;
  Query : ctx_t -> option QueryFilter -> S ->
          (list AuditRecord + error) * S;
  Close : S -> option error * S
}.

(* ================================================================= *)
(** ** The operating system, as [file.go] uses it *)

(** A path is the list of its components below the root.  A symbolic link
    is followed when it is the last component of a path; access checks are
    not modelled, permission bits are only recorded. *)
Definition path := list string.

Inductive node : Type :=
| Dir (perm : Z)
| File (perm : Z) (content : string)
| Symlink (target : path).

Record OS := {
  umask : Z;
  files : list (path * node)
}.

Fixpoint path_eqb (p q : path) : bool :=
  match p, q with
  | [], [] => true
  | a :: p', b :: q' => String.eqb a b && path_eqb p' q'
  | _, _ => false
  end.

Fixpoint lookup (p : path) (fs : list (path * node)) : option node :=
  match fs with
  | [] => None
  | (q, n) :: fs' => if path_eqb p q then Some n else lookup p fs'
  end.

(** Bind [p] to [n], replacing an existing binding. *)
Fixpoint bind (p : path) (n : node) (fs : list (path * node))
  : list (path * node) :=
  match fs with
  | [] => [(p, n)]
  | (q, m) :: fs' =>
      if path_eqb p q then (q, n) :: fs' else (q, m) :: bind p n fs'
  end.

Definition set_files (fs : list (path * node)) (os : OS) : OS :=
  {| umask := umask os; files := fs |}.

(** The path a name denotes once the symbolic links at its end are
    followed; [None] after 40 links, as the kernel gives up. *)
Fixpoint resolve (fuel : nat) (fs : list (path * node)) (p : path)
  : option path :=
  match fuel with
  | O => None
  | S fuel' =>
      match lookup p fs with
      | Some (Symlink t) => resolve fuel' fs t
      | _ => Some p
      end
  end.

(** [os.Stat(p)]: the node behind the links, if any. *)
Definition os_Stat (os : OS) (p : path) : option node :=
  match p with
  | [] => Some (Dir 493)
  | _ =>
      match resolve 40 (files os) p with
      | Some q => lookup q (files os)
      | None => None
      end
  end.

(** [filepath.Dir(p)] *)
Definition filepath_Dir (p : path) : path := removelast p.

(** The mode a new node gets: the requested bits less the umask. *)
Definition created_mode (os : OS) (perm : Z) : Z := Z.ldiff perm (umask os).

(** [os.MkdirAll(pre/rest, perm)], [pre] being known to be a directory:
    every missing directory on the way is made with [perm]; a component
    that exists and is no directory is an error. *)
Fixpoint mkdir_from (pre : path) (rest : list string) (perm : Z) (os : OS)
  : option error * OS :=
  match rest with
  | [] => (None, os)
  | c :: rest' =>
      let p := (pre ++ [c])%list in
      match lookup p (files os) with
      | None =>
          mkdir_from p rest' perm
            (set_files (bind p (Dir (created_mode os perm)) (files os)) os)
      | Some _ =>
          match os_Stat os p with
          | Some (Dir _) => mkdir_from p rest' perm os
          | _ => (Some "mkdir: not a directory", os)
          end
      end
  end.

Definition os_MkdirAll (os : OS) (p : path) (perm : Z) : option error * OS :=
  mkdir_from [] p perm os.

(** [os.OpenFile(name, os.O_APPEND|os.O_CREATE|os.O_WRONLY, perm)]: the
    open file is named by the path it was reached at. *)
Definition os_OpenFile_append (os : OS) (name : path) (perm : Z)
  : (path + error) * OS :=
  match resolve 40 (files os) name with
  | None => (inr "open: too many levels of symbolic links", os)
  | Some p =>
      match lookup p (files os) with
      | Some (File _ _) => (inl p, os)
      | Some (Dir _) => (inr "open: is a directory", os)
      | Some (Symlink _) => (inr "open: too many levels of symbolic links", os)
      | None =>
          match os_Stat os (filepath_Dir p) with
          | Some (Dir _) =>
              (inl p,
               set_files
                 (bind p (File (created_mode os perm) EmptyString) (files os))
                 os)
          | _ => (inr "open: no such file or directory", os)
          end
      end
  end.

(** A write to a file opened with [O_APPEND]. *)
Definition os_append (os : OS) (p : path) (data : string) : OS :=
  match lookup p (files os) with
  | Some (File m c) => set_files (bind p (File m (c ++ data)) (files os)) os
  | _ => os
  end.

(** What [os.Open(name)] followed by reading to the end gives. *)
Inductive read_result : Type :=
| NotExist
| ReadError (e : error)
| Bytes (content : string).

Definition os_ReadAll (os : OS) (name : path) : read_result :=
  match os_Stat os name with
  | None => NotExist
  | Some (File _ c) => Bytes c
  | Some (Dir _) => ReadError "read: is a directory"
  | Some (Symlink _) => ReadError "open: too many levels of symbolic links"
  end.

(* ================================================================= *)
(** ** [bufio.Scanner] with [bufio.ScanLines] *)

Definition newline : ascii := ascii_of_N 10.
Definition carriage_return : ascii := ascii_of_N 13.
Definition nl : string := String newline EmptyString.

Definition ErrTooLong : error := "bufio.Scanner: token too long".

(** The lines of the input: the bytes between newlines, and what follows
    the last newline when it is not empty.  [cur] is the line read so
    far. *)
Fixpoint splitLines (cur : string) (s : string) : list string :=
  match s with
  | EmptyString =>
      match cur with EmptyString => [] | _ => [cur] end
  | String c s' =>
      if Ascii.eqb c newline then cur :: splitLines EmptyString s'
      else splitLines (cur ++ String c EmptyString) s'
  end.

(** [dropCR]: a line less its final carriage return. *)
Fixpoint dropCR (line : string) : string :=
  match line with
  | EmptyString => EmptyString
  | String c EmptyString =>
      if Ascii.eqb c carriage_return then EmptyString else line
  | String c rest => String c (dropCR rest)
  end.

(** The size the scanner's buffer can grow to after
    [scanner.Buffer(make([]byte, 0, 64), max)]: it starts at 64 bytes and
    doubles up to [max]. *)
Definition buffer_limit (max : Z) : Z := Z.max 64 max.

(** The tokens [scanner.Scan()] delivers and the value of [scanner.Err()]
    after the loop.  A line is delivered when it fits the buffer together
    with its newline; a line of [buffer_limit max] bytes or more fills the
    buffer before its end is seen, and scanning stops there with
    [ErrTooLong]. *)
Fixpoint scanTokens (max : Z) (lines : list string)
  : list string * option error :=
  match lines with
  | [] => ([], None)
  | l :: ls =>
      if buffer_limit max <=? len l then ([], Some ErrTooLong)
      else let (ts, e) := scanTokens max ls in (dropCR l :: ts, e)
  end.

(* ================================================================= *)
(** ** file.go *)

Definition nonempty (s : string) : bool := negb (String.eqb s EmptyString).
Definition differs (a b : string) : bool := negb (String.eqb a b).

(** [matchesFilter(record, filter)] *)
Definition matchesFilter (record : AuditRecord) (filter : QueryFilter) : bool :=
  if nonempty (qEventType filter) && differs (EventType record) (qEventType filter) then false
  else if nonempty (qUserID filter) && differs (UserID record) (qUserID filter) then false
  else if nonempty (qChallengeID filter) && differs (ChallengeID record) (qChallengeID filter) then false
  else if nonempty (qSessionID filter) && differs (SessionID record) (qSessionID filter) then false
  else if nonempty (qChannel filter) && differs (Channel record) (qChannel filter) then false
  else if nonempty (qResult filter) && differs (Result record) (qResult filter) then false
  else if nonempty (qIP filter) && differs (IP record) (qIP filter) then false
  else if (qStartTime filter >? 0) && (Timestamp record <? qStartTime filter) then false
  else if (qEndTime filter >? 0) && (Timestamp record >? qEndTime filter) then false
  else true.

(** [type FileStorage struct].  [file] is the path the open file was
    reached at and [file_closed] whether [file.Close()] was called;
    [writer_err] is the error a [bufio.Writer] keeps after a failed
    write.  Every [Write] ends with a flush, so the writer's buffer is
    empty between calls and is not part of the state. *)
Record FileStorage := {
  filePath : path;
  file : path;
  file_closed : bool;
  writer_err : option error
}.

(** [NewFileStorage(filePath)] *)
Definition NewFileStorage (os : OS) (filePath : path)
  : (FileStorage + error) * OS :=
  let dir := filepath_Dir filePath in
  match os_MkdirAll os dir 493 (* 0755 *) with
  | (Some err, os1) => (inr ("failed to create directory: " ++ err), os1)
  | (None, os1) =>
      match os_OpenFile_append os1 filePath 420 (* 0644 *) with
      | (inr err, os2) => (inr ("failed to open file: " ++ err), os2)
      | (inl f, os2) =>
          (inl {| filePath := filePath; file := f; file_closed := false;
                  writer_err := None |}, os2)
      end
  end.

Definition set_writer_err (e : error) (s : FileStorage) : FileStorage :=
  {| filePath := filePath s; file := file s; file_closed := file_closed s;
     writer_err := Some e |}.

Definition ErrClosed : error := "write: file already closed".

(** The size of a [bufio.Writer]'s buffer. *)
Definition defaultBufSize : Z := 4096.

Section WithJSON.
Context {codec : JSON}.

(** [s.Write(ctx, record)].  The three failure messages are those of the
    first call that reaches the closed file: [writer.Write] when the
    line exceeds the writer's buffer, [writer.WriteString] when it fills
    it exactly, [writer.Flush] otherwise. *)
Definition FileStorage_Write (ctx : ctx_t) (record : AuditRecord)
    (st : FileStorage * OS) : option error * (FileStorage * OS) :=
  let (s, os) := st in
  if ctx_done ctx then (ctx_Err ctx, st)
  else
    let data := json_Marshal record in
    match writer_err s with
    | Some e => (Some ("failed to write to file: " ++ e), st)
    | None =>
        if file_closed s then
          let st' := (set_writer_err ErrClosed s, os) in
          if defaultBufSize <? len data
          then (Some ("failed to write to file: " ++ ErrClosed), st')
          else if len data =? defaultBufSize
          then (Some ("failed to write newline: " ++ ErrClosed), st')
          else (Some ("failed to flush buffer: " ++ ErrClosed), st')
        else (None, (s, os_append os (file s) (data ++ nl)))
    end.

(** The body of the scan loop of [Query], for the tokens delivered: empty
    lines, lines above the ceiling and lines that do not decode are passed
    over. *)
Fixpoint decodeLines (tokens : list string) : list AuditRecord :=
  match tokens with
  | [] => []
  | line :: rest =>
      if len line =? 0 then decodeLines rest
      else if len line >? MaxRecordJSONSize then decodeLines rest
      else match json_Unmarshal line with
           | None => decodeLines rest
           | Some record => (record :: decodeLines rest)%list
           end
  end.

(** The second loop of [Query], over the records from the last read to
    the first: [offset] counts the matches passed over, [results] holds
    the matches kept. *)
Fixpoint paginate (filter : QueryFilter) (newest_first : list AuditRecord)
    (offset : Z) (results : list AuditRecord) : list AuditRecord :=
  match newest_first with
  | [] => results
  | record :: rest =>
      if negb (matchesFilter record filter)
      then paginate filter rest offset results
      else if offset <? Offset filter
      then paginate filter rest (offset + 1) results
      else
        let results' := (results ++ [record])%list in
        if llen results' >=? Limit filter then results'
        else paginate filter rest offset results'
  end.

(** [s.Query(ctx, filter)] *)
Definition FileStorage_Query (ctx : ctx_t) (filter : option QueryFilter)
    (st : FileStorage * OS)
  : (list AuditRecord + error) * (FileStorage * OS) :=
  let (s, os) := st in
  let filter :=
    Normalize (match filter with None => DefaultQueryFilter | Some f => f end) in
  match resolve 40 (files os) (filePath s) with
  | None =>
      (inr "failed to open file for reading: too many levels of symbolic links",
       st)
  | Some _ =>
      match os_ReadAll os (filePath s) with
      | NotExist => (inl [], st)
      | ReadError e => (inr ("failed to read file: " ++ e), st)
      | Bytes content =>
          let (tokens, err) :=
            scanTokens MaxRecordJSONSize (splitLines EmptyString content) in
          match tokens, ctx_done ctx with
          | (_ :: _)%list, true => (inr context_Canceled, st)
          | _, _ =>
              match err with
              | Some e => (inr ("failed to read file: " ++ e), st)
              | None =>
                  (inl (paginate filter (rev (decodeLines tokens)) 0 []), st)
              end
          end
      end
  end.

(** [s.Close()] *)
Definition FileStorage_Close (st : FileStorage * OS)
  : option error * (FileStorage * OS) :=
  let (s, os) := st in
  if file_closed s then (Some "close: file already closed", st)
  else (None,
        ({| filePath := filePath s; file := file s; file_closed := true;
            writer_err := writer_err s |}, os)).

#[export] Instance FileStorage_Storage : Storage (FileStorage * OS) := {
  Write := FileStorage_Write;
  Query := FileStorage_Query;
  Close := FileStorage_Close
}.

(** Writing a list of records one after the other, stopping at the first
    error. *)
Fixpoint write_all {S : Type} `{Storage S} (ctx : ctx_t)
    (records : list AuditRecord) (st : S) : option error * S :=
  match records with
  | [] => (None, st)
  | r :: rest =>
      match Write ctx r st with
      | (Some e, st') => (Some e, st')
      | (None, st') => write_all ctx rest st'
      end
  end.

(* ================================================================= *)
(** ** The Redis server, as [redis.go] uses it *)

(** One key space; a key holds a string with its time to live or a sorted
    set of members with integer scores (the package only scores by Unix
    timestamps).  Expiry needs a clock and is not modelled: a key that has
    expired is a key that is absent. *)
Inductive rvalue : Type :=
| RString (data : string) (ttl : Z)
| RZSet (members : list (string * Z)).

Definition Redis := list (string * rvalue).

Fixpoint rget {V : Type} (k : string) (m : list (string * V)) : option V :=
  match m with
  | [] => None
  | (k', v) :: m' => if String.eqb k k' then Some v else rget k m'
  end.

Fixpoint rput {V : Type} (k : string) (v : V) (m : list (string * V))
  : list (string * V) :=
  match m with
  | [] => [(k, v)]
  | (k', v') :: m' =>
      if String.eqb k k' then (k', v) :: m' else (k', v') :: rput k v m'
  end.

Fixpoint rdel {V : Type} (k : string) (m : list (string * V))
  : list (string * V) :=
  match m with
  | [] => []
  | (k', v') :: m' =>
      if String.eqb k k' then m' else (k', v') :: rdel k m'
  end.

Definition WRONGTYPE : error :=
  "WRONGTYPE Operation against a key holding the wrong kind of value".

(** [SET key data EX ttl] *)
Definition redis_Set (db : Redis) (key data : string) (ttl : Z) : Redis :=
  rput key (RString data ttl) db.

(** [GET key] *)
Inductive get_result : Type :=
| GetNil
| GetErr (e : error)
| GetOk (data : string).

Definition redis_Get (db : Redis) (key : string) : get_result :=
  match rget key db with
  | None => GetNil
  | Some (RString data _) => GetOk data
  | Some (RZSet _) => GetErr WRONGTYPE
  end.

(** [ZADD key score member] *)
Definition redis_ZAdd (db : Redis) (key : string) (score : Z) (member : string)
  : option error * Redis :=
  match rget key db with
  | None => (None, rput key (RZSet [(member, score)]) db)
  | Some (RZSet ms) => (None, rput key (RZSet (rput member score ms)) db)
  | Some (RString _ _) => (Some WRONGTYPE, db)
  end.

(** [ZREM key member]; a set left empty is removed. *)
Definition redis_ZRem (db : Redis) (key member : string)
  : option error * Redis :=
  match rget key db with
  | None => (None, db)
  | Some (RZSet ms) =>
      match rdel member ms with
      | [] => (None, rdel key db)
      | ms' => (None, rput key (RZSet ms') db)
      end
  | Some (RString _ _) => (Some WRONGTYPE, db)
  end.

(** Insertion into a list ordered by [before]. *)
Fixpoint insert_by {A : Type} (before : A -> A -> bool) (x : A) (l : list A)
  : list A :=
  match l with
  | [] => [x]
  | y :: l' => if before x y then x :: y :: l' else y :: insert_by before x l'
  end.

Definition sort_by {A : Type} (before : A -> A -> bool) (l : list A) : list A :=
  fold_right (insert_by before) [] l.

(** The order of [ZREVRANGEBYSCORE]: higher scores first, and among equal
    scores the lexicographically greater member first. *)
Definition zrev_before (a b : string * Z) : bool :=
  (snd a >? snd b) || ((snd a =? snd b) && String.ltb (fst b) (fst a)).

Definition in_range (min max : option Z) (score : Z) : bool :=
  match min with Some lo => lo <=? score | None => true end &&
  match max with Some hi => score <=? hi | None => true end.

(** The elements [l[from:to]] of a slice ([0 <= from <= to <= len(l)]). *)
Definition slice {A : Type} (from to : Z) (l : list A) : list A :=
  firstn (Z.to_nat (to - from)) (skipn (Z.to_nat from) l).

(** [ZREVRANGEBYSCORE key max min LIMIT offset count]; [None] is an
    infinite bound; a negative count returns everything from [offset]. *)
Definition redis_ZRevRangeByScore (db : Redis) (key : string)
    (min max : option Z) (offset count : Z) : list string + error :=
  match rget key db with
  | None => inl []
  | Some (RString _ _) => inr WRONGTYPE
  | Some (RZSet ms) =>
      let hits :=
        sort_by zrev_before (filter (fun m => in_range min max (snd m)) ms) in
      let from := skipn (Z.to_nat offset) hits in
      inl (map fst (if count <? 0 then from else firstn (Z.to_nat count) from))
  end.

(* ================================================================= *)
(** ** redis.go *)

(** [type RedisStorage struct]; the client is represented by whether it
    has been closed. *)
Record RedisStorage := {
  client_closed : bool;
  keyPrefix : string;
  ttl : Z
}.

(** [type RedisConfig struct] *)
Record RedisConfig := {
  KeyPrefix : string;
  TTL : Z
}.

(** [7 * 24 * time.Hour], in nanoseconds. *)
Definition seven_days : Z := 7 * 24 * 3600 * 1000000000.

(** [DefaultRedisConfig()] *)
Definition DefaultRedisConfig : RedisConfig :=
  {| KeyPrefix := "audit:"; TTL := seven_days |}.

(** [NewRedisStorageWithConfig(client, config)] *)
Definition NewRedisStorageWithConfig (config : option RedisConfig)
  : RedisStorage :=
  let config := match config with None => DefaultRedisConfig | Some c => c end in
  let prefix := if String.eqb (KeyPrefix config) EmptyString then "audit:"
                else KeyPrefix config in
  let t := if TTL config <=? 0 then seven_days else TTL config in
  {| client_closed := false; keyPrefix := prefix; ttl := t |}.

(** [NewRedisStorage(client)] *)
Definition NewRedisStorage : RedisStorage := NewRedisStorageWithConfig None.

Definition redis_ErrClosed : error := "redis: client is closed".

(** The error of a command that the client does not send: the client is
    closed, or the context is done when a connection is asked for. *)
Definition client_err (s : RedisStorage) (ctx : ctx_t) : option error :=
  if client_closed s then Some redis_ErrClosed else ctx_Err ctx.

(** The key [Write] stores a record under. *)
Definition record_key (prefix : string) (record : AuditRecord) : string :=
  if nonempty (EventID record)
  then prefix ++ itoa (Timestamp record) ++ ":" ++ EventID record
  else if nonempty (ChallengeID record)
  then prefix ++ itoa (Timestamp record) ++ ":" ++ ChallengeID record
  else if nonempty (UserID record)
  then prefix ++ itoa (Timestamp record) ++ ":" ++ UserID record
  else prefix ++ itoa (Timestamp record).

(** [s.Write(ctx, record)] *)
Definition RedisStorage_Write (ctx : ctx_t) (record : AuditRecord)
    (st : RedisStorage * Redis) : option error * (RedisStorage * Redis) :=
  let (s, db) := st in
  let key := record_key (keyPrefix s) record in
  let data := json_Marshal record in
  match client_err s ctx with
  | Some e => (Some ("failed to set key: " ++ e), st)
  | None =>
      let db1 := redis_Set db key data (ttl s) in
      let setKey := keyPrefix s ++ "index" in
      match redis_ZAdd db1 setKey (Timestamp record) key with
      | (Some e, db2) => (Some ("failed to add to sorted set: " ++ e), (s, db2))
      | (None, db2) => (None, (s, db2))
      end
  end.

(** The loop of [Query] over the keys of the index: a key that is gone is
    taken out of the index; a value that cannot be read or decoded, or a
    record the filter rejects, is passed over. *)
Fixpoint fetch (setKey : string) (filter : QueryFilter) (keys : list string)
    (db : Redis) : list AuditRecord * Redis :=
  match keys with
  | [] => ([], db)
  | key :: rest =>
      match redis_Get db key with
      | GetNil => fetch setKey filter rest (snd (redis_ZRem db setKey key))
      | GetErr _ => fetch setKey filter rest db
      | GetOk data =>
          match json_Unmarshal data with
          | None => fetch setKey filter rest db
          | Some record =>
              if negb (matchesFilter record filter)
              then fetch setKey filter rest db
              else let (records, db') := fetch setKey filter rest db in
                   ((record :: records)%list, db')
          end
      end
  end.

(** The comparison given to [sort.Slice]. *)
Definition newer (a b : AuditRecord) : bool := Timestamp a >? Timestamp b.

(** [s.Query(ctx, filter)].  [sort.Slice] is modelled by a sort for the
    same comparison; the order it leaves equal timestamps in is not
    specified by Go. *)
Definition RedisStorage_Query (ctx : ctx_t) (filter : option QueryFilter)
    (st : RedisStorage * Redis)
  : (list AuditRecord + error) * (RedisStorage * Redis) :=
  let (s, db) := st in
  let filter :=
    Normalize (match filter with None => DefaultQueryFilter | Some f => f end) in
  let setKey := keyPrefix s ++ "index" in
  let min := if qStartTime filter >? 0 then Some (qStartTime filter) else None in
  let max := if qEndTime filter >? 0 then Some (qEndTime filter) else None in
  match client_err s ctx with
  | Some e => (inr ("failed to get keys: " ++ e), st)
  | None =>
      match redis_ZRevRangeByScore db setKey min max 0
              (wrap64 (Limit filter + Offset filter + 100)) with
      | inr e => (inr ("failed to get keys: " ++ e), st)
      | inl keys =>
          if llen keys =? 0 then (inl [], st)
          else
            let (fetched, db') := fetch setKey filter keys db in
            let records := sort_by newer fetched in
            let start := Offset filter in
            if start >=? llen records then (inl [], (s, db'))
            else
              let stop := wrap64 (start + Limit filter) in
              let stop := if stop >? llen records then llen records else stop in
              (inl (slice start stop records), (s, db'))
      end
  end.

(** [s.Close()] *)
Definition RedisStorage_Close (st : RedisStorage * Redis)
  : option error * (RedisStorage * Redis) :=
  let (s, db) := st in
  if client_closed s then (Some redis_ErrClosed, st)
  else (None,
        ({| client_closed := true; keyPrefix := keyPrefix s; ttl := ttl s |},
         db)).

#[export] Instance RedisStorage_Storage : Storage (RedisStorage * Redis) := {
  Write := RedisStorage_Write;
  Query := RedisStorage_Query;
  Close := RedisStorage_Close
}.

End WithJSON.

(* ================================================================= *)
(** ** database.go *)

(** A [*sql.DB], as [createTable] uses it: how the engine answers a
    statement, and the statements it has been given so far. *)
Record DB := {
  db_answer : string -> option error;
  db_executed : list string
}.

(** [db.ExecContext(ctx, stmt)] *)
Definition ExecContext (db : DB) (stmt : string) : option error * DB :=
  (db_answer db stmt,
   {| db_answer := db_answer db;
      db_executed := (db_executed db ++ [stmt])%list |}).

(** [strings.Split(s, sep)] for a separator of one byte; [cur] is the
    piece read so far. *)
Fixpoint split_on (sep : ascii) (cur : string) (s : string) : list string :=
  match s with
  | EmptyString => [cur]
  | String c s' =>
      if Ascii.eqb c sep then cur :: split_on sep EmptyString s'
      else split_on sep (cur ++ String c EmptyString) s'
  end.

Definition is_space (c : ascii) : bool :=
  let n := N_of_ascii c in
  ((9 <=? n) && (n <=? 13) || (n =? 32))%N.

Fixpoint trim_left (s : string) : string :=
  match s with
  | String c s' => if is_space c then trim_left s' else s
  | EmptyString => EmptyString
  end.

Fixpoint rev_string (s acc : string) : string :=
  match s with
  | EmptyString => acc
  | String c s' => rev_string s' (String c acc)
  end.

(** [strings.TrimSpace(s)], on ASCII white space. *)
Definition TrimSpace (s : string) : string :=
  rev_string (trim_left (rev_string (trim_left s) EmptyString)) EmptyString.

(** The statement text [createTable] builds for [postgres]: the format string of
    the source with the table name at each [%s]. *)
Definition createTableSQL_postgres (t : string) : string :=
  "
		CREATE TABLE IF NOT EXISTS " ++ t ++ " (
			id BIGSERIAL PRIMARY KEY,
			event_type VARCHAR(50) NOT NULL,
			event_id VARCHAR(100),
			user_id VARCHAR(100),
			challenge_id VARCHAR(100),
			session_id VARCHAR(100),
			channel VARCHAR(20),
			destination VARCHAR(255),
			purpose VARCHAR(50),
			resource VARCHAR(255),
			result VARCHAR(20),
			reason VARCHAR(255),
			provider VARCHAR(50),
			provider_message_id VARCHAR(255),
			ip VARCHAR(45),
			user_agent TEXT,
			request_id VARCHAR(100),
			trace_id VARCHAR(100),
			timestamp BIGINT NOT NULL,
			duration_ms BIGINT,
			metadata JSONB,
			created_at TIMESTAMP NOT NULL DEFAULT NOW()
		);

		CREATE INDEX IF NOT EXISTS idx_" ++ t ++ "_user_id ON " ++ t ++ "(user_id);
		CREATE INDEX IF NOT EXISTS idx_" ++ t ++ "_challenge_id ON " ++ t ++ "(challenge_id);
		CREATE INDEX IF NOT EXISTS idx_" ++ t ++ "_session_id ON " ++ t ++ "(session_id);
		CREATE INDEX IF NOT EXISTS idx_" ++ t ++ "_event_type ON " ++ t ++ "(event_type);
		CREATE INDEX IF NOT EXISTS idx_" ++ t ++ "_timestamp ON " ++ t ++ "(timestamp);
		CREATE INDEX IF NOT EXISTS idx_" ++ t ++ "_created_at ON " ++ t ++ "(created_at);
		".

(** The statement text [createTable] builds for [mysql]: the format string of
    the source with the table name at each [%s]. *)
Definition createTableSQL_mysql (t : string) : string :=
  "
		CREATE TABLE IF NOT EXISTS " ++ t ++ " (
			id BIGINT AUTO_INCREMENT PRIMARY KEY,
			event_type VARCHAR(50) NOT NULL,
			event_id VARCHAR(100),
			user_id VARCHAR(100),
			challenge_id VARCHAR(100),
			session_id VARCHAR(100),
			channel VARCHAR(20),
			destination VARCHAR(255),
			purpose VARCHAR(50),
			resource VARCHAR(255),
			result VARCHAR(20),
			reason VARCHAR(255),
			provider VARCHAR(50),
			provider_message_id VARCHAR(255),
			ip VARCHAR(45),
			user_agent TEXT,
			request_id VARCHAR(100),
			trace_id VARCHAR(100),
			timestamp BIGINT NOT NULL,
			duration_ms BIGINT,
			metadata JSON,
			created_at TIMESTAMP NOT NULL DEFAULT CURRENT_TIMESTAMP,
			INDEX idx_" ++ t ++ "_user_id (user_id),
			INDEX idx_" ++ t ++ "_challenge_id (challenge_id),
			INDEX idx_" ++ t ++ "_session_id (session_id),
			INDEX idx_" ++ t ++ "_event_type (event_type),
			INDEX idx_" ++ t ++ "_timestamp (timestamp),
			INDEX idx_" ++ t ++ "_created_at (created_at)
		) ENGINE=InnoDB DEFAULT CHARSET=utf8mb4;
		".

(** The statement text [createTable] builds for [sqlite]: the format string of
    the source with the table name at each [%s]. *)
Definition createTableSQL_sqlite (t : string) : string :=
  "
		CREATE TABLE IF NOT EXISTS " ++ t ++ " (
			id INTEGER PRIMARY KEY AUTOINCREMENT,
			event_type VARCHAR(50) NOT NULL,
			event_id VARCHAR(100),
			user_id VARCHAR(100),
			challenge_id VARCHAR(100),
			session_id VARCHAR(100),
			channel VARCHAR(20),
			destination VARCHAR(255),
			purpose VARCHAR(50),
			resource VARCHAR(255),
			result VARCHAR(20),
			reason VARCHAR(255),
			provider VARCHAR(50),
			provider_message_id VARCHAR(255),
			ip VARCHAR(45),
			user_agent TEXT,
			request_id VARCHAR(100),
			trace_id VARCHAR(100),
			timestamp BIGINT NOT NULL,
			duration_ms BIGINT,
			metadata TEXT,
			created_at TIMESTAMP NOT NULL DEFAULT CURRENT_TIMESTAMP
		);

		CREATE INDEX IF NOT EXISTS idx_" ++ t ++ "_user_id ON " ++ t ++ "(user_id);
		CREATE INDEX IF NOT EXISTS idx_" ++ t ++ "_challenge_id ON " ++ t ++ "(challenge_id);
		CREATE INDEX IF NOT EXISTS idx_" ++ t ++ "_session_id ON " ++ t ++ "(session_id);
		CREATE INDEX IF NOT EXISTS idx_" ++ t ++ "_event_type ON " ++ t ++ "(event_type);
		CREATE INDEX IF NOT EXISTS idx_" ++ t ++ "_timestamp ON " ++ t ++ "(timestamp);
		CREATE INDEX IF NOT EXISTS idx_" ++ t ++ "_created_at ON " ++ t ++ "(created_at);
		".

(** [type DatabaseStorage struct] *)
Record DatabaseStorage := {
  db : DB;
  dbType : string;
  tableName : string
}.

(** [type DatabaseConfig struct] *)
Record DatabaseConfig := { TableName : string }.

(** [DefaultDatabaseConfig()] *)
Definition DefaultDatabaseConfig : DatabaseConfig :=
  {| TableName := "audit_logs" |}.

(** The loop of [createTable] over the statements: each one is trimmed,
    an empty one is passed over, the others are executed until one
    fails. *)
Fixpoint exec_statements (statements : list string) (d : DB)
  : option error * DB :=
  match statements with
  | [] => (None, d)
  | stmt :: rest =>
      let stmt := TrimSpace stmt in
      if String.eqb stmt EmptyString then exec_statements rest d
      else match ExecContext d stmt with
           | (Some err, d') => (Some err, d')
           | (None, d') => exec_statements rest d'
           end
  end.

Definition semicolon : ascii := ascii_of_N 59.

(** [s.createTable(ctx)] *)
Definition createTable (s : DatabaseStorage) : option error * DB :=
  let sql :=
    if String.eqb (dbType s) "postgres"
    then inl (createTableSQL_postgres (tableName s))
    else if String.eqb (dbType s) "mysql"
    then inl (createTableSQL_mysql (tableName s))
    else if String.eqb (dbType s) "sqlite"
    then inl (createTableSQL_sqlite (tableName s))
    else inr ("unsupported database type: " ++ dbType s) in
  match sql with
  | inr err => (Some err, db s)
  | inl createTableSQL =>
      exec_statements (split_on semicolon EmptyString createTableSQL) (db s)
  end.

(** [NewDatabaseStorageFromDB(db, dbType, config)]; the connection is
    returned beside the result so that what was executed can be read. *)
Definition NewDatabaseStorageFromDB (d : DB) (dbType : string)
    (config : option DatabaseConfig) : (DatabaseStorage + error) * DB :=
  let config :=
    match config with None => DefaultDatabaseConfig | Some c => c end in
  if differs dbType "postgres" && differs dbType "mysql"
     && differs dbType "sqlite"
  then (inr ("unsupported database type: " ++ dbType), d)
  else
    let storage :=
      {| db := d; dbType := dbType; tableName := TableName config |} in
    match createTable storage with
    | (Some err, d') => (inr ("failed to create table: " ++ err), d')
    | (None, d') =>
        (inl {| db := d'; dbType := dbType; tableName := TableName config |},
         d')
    end.

(** [s[:n]] for [n <= len(s)] *)
Definition prefix_of (n : nat) (s : string) : string := substring 0 n s.

(** [s[n:]] for [n <= len(s)] *)
Definition suffix_from (n : nat) (s : string) : string :=
  substring n (String.length s - n) s.

(** [NewDatabaseStorageWithConfig(databaseURL, config)].  [connect driver
    dsn] stands for [sql.Open] followed by [db.PingContext]: the
    connection, or the message of the step that failed. *)
Definition NewDatabaseStorageWithConfig
    (connect : string -> string -> DB + error)
    (databaseURL : string) (config : option DatabaseConfig)
  : (DatabaseStorage + error) * option DB :=
  let config :=
    match config with None => DefaultDatabaseConfig | Some c => c end in
  let detected :=
    if (len databaseURL >=? 10)
       && String.eqb (prefix_of 10 databaseURL) "postgres://"
    then Some ("postgres", "postgres", databaseURL)
    else if (len databaseURL >=? 8)
            && String.eqb (prefix_of 8 databaseURL) "mysql://"
    then Some ("mysql", "mysql", suffix_from 8 databaseURL)
    else None in
  match detected with
  | None =>
      (inr "unsupported database URL format, must start with postgres:// or mysql://",
       None)
  | Some (dbType, driver, dsn) =>
      match connect driver dsn with
      | inr err => (inr err, None)
      | inl d =>
          let storage :=
            {| db := d; dbType := dbType; tableName := TableName config |} in
          match createTable storage with
          | (Some err, d') =>
              (inr ("failed to create table: " ++ err), Some d')
          | (None, d') =>
              (inl {| db := d'; dbType := dbType;
                      tableName := TableName config |}, Some d')
          end
      end
  end.

(* ================================================================= *)
(** ** factory.go *)

(** A value of interface type [Storage]: a backend's state together with
    its methods. *)
Record AnyStorage := {
  backend : Type;
  backend_ops : Storage backend;
  backend_state : backend
}.

Definition with_state (b : AnyStorage) (st : backend b) : AnyStorage :=
  {| backend := backend b; backend_ops := backend_ops b; backend_state := st |}.

(** The methods of a value of interface type. *)
Definition any_Write (ctx : ctx_t) (record : AuditRecord) (b : AnyStorage)
  : option error * AnyStorage :=
  let (err, st) := @Write _ (backend_ops b) ctx record (backend_state b) in
  (err, with_state b st).

Definition any_Query (ctx : ctx_t) (filter : option QueryFilter)
    (b : AnyStorage) : (list AuditRecord + error) * AnyStorage :=
  let (res, st) := @Query _ (backend_ops b) ctx filter (backend_state b) in
  (res, with_state b st).

Definition any_Close (b : AnyStorage) : option error * AnyStorage :=
  let (err, st) := @Close _ (backend_ops b) (backend_state b) in
  (err, with_state b st).

#[export] Instance AnyStorage_Storage : Storage AnyStorage := {
  Write := any_Write;
  Query := any_Query;
  Close := any_Close
}.

(** [type MultiStorage struct]; a nil entry of the slice is [None]. *)
Record MultiStorage := { storages : list (option AnyStorage) }.

(** [NewMultiStorage(storages...)] *)
Definition NewMultiStorage (ss : list (option AnyStorage)) : MultiStorage :=
  {| storages := ss |}.

(** [if err != nil && firstErr == nil { firstErr = err }] *)
Definition keep_first (firstErr err : option error) : option error :=
  match err, firstErr with
  | Some e, None => Some e
  | _, _ => firstErr
  end.

(** The loop of [m.Write] from some position on, [firstErr] being the
    error met so far. *)
Fixpoint multi_write (ctx : ctx_t) (record : AuditRecord)
    (ss : list (option AnyStorage)) (firstErr : option error)
  : option error * list (option AnyStorage) :=
  match ss with
  | [] => (firstErr, [])
  | None :: rest =>
      let (e, rest') := multi_write ctx record rest firstErr in
      (e, None :: rest')
  | Some s :: rest =>
      let (err, s') := any_Write ctx record s in
      let (e, rest') := multi_write ctx record rest (keep_first firstErr err) in
      (e, Some s' :: rest')
  end.

(** [m.Write(ctx, record)] *)
Definition MultiStorage_Write (ctx : ctx_t) (record : AuditRecord)
    (m : MultiStorage) : option error * MultiStorage :=
  let (e, ss) := multi_write ctx record (storages m) None in
  (e, {| storages := ss |}).

(** The loop of [m.Query]: the first entry that is not nil answers. *)
Fixpoint multi_query (ctx : ctx_t) (filter : option QueryFilter)
    (ss : list (option AnyStorage))
  : (list AuditRecord + error) * list (option AnyStorage) :=
  match ss with
  | [] => (inr "no storage configured", [])
  | None :: rest =>
      let (res, rest') := multi_query ctx filter rest in
      (res, None :: rest')
  | Some s :: rest =>
      let (res, s') := any_Query ctx filter s in
      (res, Some s' :: rest)
  end.

(** [m.Query(ctx, filter)] *)
Definition MultiStorage_Query (ctx : ctx_t) (filter : option QueryFilter)
    (m : MultiStorage) : (list AuditRecord + error) * MultiStorage :=
  let (res, ss) := multi_query ctx filter (storages m) in
  (res, {| storages := ss |}).

(** The loop of [m.Close]. *)
Fixpoint multi_close (ss : list (option AnyStorage)) (firstErr : option error)
  : option error * list (option AnyStorage) :=
  match ss with
  | [] => (firstErr, [])
  | None :: rest =>
      let (e, rest') := multi_close rest firstErr in
      (e, None :: rest')
  | Some s :: rest =>
      let (err, s') := any_Close s in
      let (e, rest') := multi_close rest (keep_first firstErr err) in
      (e, Some s' :: rest')
  end.

(** [m.Close()] *)
Definition MultiStorage_Close (m : MultiStorage)
  : option error * MultiStorage :=
  let (e, ss) := multi_close (storages m) None in
  (e, {| storages := ss |}).

#[export] Instance MultiStorage_Storage : Storage MultiStorage := {
  Write := MultiStorage_Write;
  Query := MultiStorage_Query;
  Close := MultiStorage_Close
}.

(** [type NoopStorage struct{}] *)
Inductive NoopStorage : Type := NewNoopStorage.

#[export] Instance NoopStorage_Storage : Storage NoopStorage := {
  Write := fun _ _ s => (None, s);
  Query := fun _ _ s => (inl [], s);
  Close := fun s => (None, s)
}.

(* ================================================================= *)
(** ** writer.go *)

(** [type WriterConfig struct]; [StopTimeout] in nanoseconds. *)
Record WriterConfig := {
  QueueSize : Z;
  Workers : Z;
  StopTimeout : Z
}.

Definition ten_seconds : Z := 10 * 1000000000.

(** [DefaultWriterConfig()] *)
Definition DefaultWriterConfig : WriterConfig :=
  {| QueueSize := 1000; Workers := 2; StopTimeout := ten_seconds |}.

(** What the package does to the outside besides the backend: a callback
    it calls, a line it gives to [log.Printf]. *)
Inductive Event : Type :=
| EnqueueFailedCalled (record : AuditRecord)
| WriteFailedCalled (record : AuditRecord) (err : error)
| LogCallbackCalled (record : AuditRecord)
| Printed (line : string).

(** [type Stats struct] *)
Record Stats := {
  QueueLength : Z;
  QueueCap : Z;
  StatsWorkers : Z;
  Started : bool;
  Stopped : bool
}.

Section AsyncWriter.
Context {S : Type} {ops : Storage S}.

(** [type Writer struct].  [queue] is the content of the buffered channel,
    oldest first, [queue_cap] its capacity and [queue_closed] whether
    [close(w.queue)] has run; [cancelled] is whether [w.cancel()] has run;
    [onEnqueueFailed] and [onWriteFailed] tell whether the callback is
    set, and [events] lists, oldest first, the callbacks called and the
    lines logged.  The workers are not state of their own: a step of a
    worker is a transition of the writer ([worker_step]). *)
Record Writer := {
  storage : option S;
  queue : list AuditRecord;
  queue_cap : Z;
  queue_closed : bool;
  workers : Z;
  stopTimeout : Z;
  cancelled : bool;
  started : bool;
  stopped : bool;
  onEnqueueFailed : bool;
  onWriteFailed : bool;
  events : list Event
}.

(** [NewWriter(storage, config)] *)
Definition NewWriter (storage : option S) (config : option WriterConfig)
  : Writer :=
  let config :=
    match config with None => DefaultWriterConfig | Some c => c end in
  let size := if QueueSize config <=? 0 then 1000 else QueueSize config in
  let n := if Workers config <=? 0 then 2 else Workers config in
  let t := if StopTimeout config <=? 0 then ten_seconds else StopTimeout config in
  {| storage := storage; queue := []; queue_cap := size;
     queue_closed := false; workers := n; stopTimeout := t;
     cancelled := false; started := false; stopped := false;
     onEnqueueFailed := false; onWriteFailed := false; events := [] |}.

Definition set_storage (st : option S) (w : Writer) : Writer :=
  {| storage := st; queue := queue w; queue_cap := queue_cap w;
     queue_closed := queue_closed w; workers := workers w;
     stopTimeout := stopTimeout w; cancelled := cancelled w;
     started := started w; stopped := stopped w;
     onEnqueueFailed := onEnqueueFailed w; onWriteFailed := onWriteFailed w;
     events := events w |}.

Definition set_queue (q : list AuditRecord) (w : Writer) : Writer :=
  {| storage := storage w; queue := q; queue_cap := queue_cap w;
     queue_closed := queue_closed w; workers := workers w;
     stopTimeout := stopTimeout w; cancelled := cancelled w;
     started := started w; stopped := stopped w;
     onEnqueueFailed := onEnqueueFailed w; onWriteFailed := onWriteFailed w;
     events := events w |}.

Definition emit (e : Event) (w : Writer) : Writer :=
  {| storage := storage w; queue := queue w; queue_cap := queue_cap w;
     queue_closed := queue_closed w; workers := workers w;
     stopTimeout := stopTimeout w; cancelled := cancelled w;
     started := started w; stopped := stopped w;
     onEnqueueFailed := onEnqueueFailed w; onWriteFailed := onWriteFailed w;
     events := (events w ++ [e])%list |}.

(** [w.OnEnqueueFailed(fn)] *)
Definition OnEnqueueFailed (w : Writer) : Writer :=
  {| storage := storage w; queue := queue w; queue_cap := queue_cap w;
     queue_closed := queue_closed w; workers := workers w;
     stopTimeout := stopTimeout w; cancelled := cancelled w;
     started := started w; stopped := stopped w;
     onEnqueueFailed := true; onWriteFailed := onWriteFailed w;
     events := events w |}.

(** [w.OnWriteFailed(fn)] *)
Definition OnWriteFailed (w : Writer) : Writer :=
  {| storage := storage w; queue := queue w; queue_cap := queue_cap w;
     queue_closed := queue_closed w; workers := workers w;
     stopTimeout := stopTimeout w; cancelled := cancelled w;
     started := started w; stopped := stopped w;
     onEnqueueFailed := onEnqueueFailed w; onWriteFailed := true;
     events := events w |}.

(** [w.Start()] *)
Definition Start (w : Writer) : Writer :=
  if started w then w
  else
    emit (Printed ("[audit] Started " ++ itoa (workers w)
                   ++ " audit log writer workers"))
      {| storage := storage w; queue := queue w; queue_cap := queue_cap w;
         queue_closed := queue_closed w; workers := workers w;
         stopTimeout := stopTimeout w; cancelled := cancelled w;
         started := true; stopped := stopped w;
         onEnqueueFailed := onEnqueueFailed w;
         onWriteFailed := onWriteFailed w; events := events w |}.

(** [w.Enqueue(record)]: a [select] with one send and a [default].  A
    send on a closed channel panics; otherwise the send goes ahead when
    the buffer has room. *)
Definition Enqueue (record : AuditRecord) (w : Writer)
  : outcome (bool * Writer) :=
  if queue_closed w then Panics "send on closed channel"
  else if llen (queue w) <? queue_cap w
  then Returns (true, set_queue (queue w ++ [record])%list w)
  else if onEnqueueFailed w
  then Returns (false, emit (EnqueueFailedCalled record) w)
  else Returns
         (false,
          emit (Printed
                  ("[audit] Audit log queue is full, dropping record: event_type="
                   ++ EventType record ++ ", user_id=" ++ UserID record)) w).

(** [w.writeRecord(workerID, record)]; the number of the worker, which
    only appears in the line logged, is left out. *)
Definition writeRecord (record : AuditRecord) (w : Writer) : outcome Writer :=
  match storage w with
  | None => Panics "invalid memory address or nil pointer dereference"
  | Some st =>
      let (err, st') := Write {| ctx_done := cancelled w |} record st in
      let w' := set_storage (Some st') w in
      match err with
      | None => Returns w'
      | Some e =>
          if onWriteFailed w then Returns (emit (WriteFailedCalled record e) w')
          else Returns
                 (emit (Printed ("[audit] Worker failed to write record: " ++ e))
                    w')
      end
  end.

(** One turn of the loop of a worker: it receives the oldest record of
    the queue, if any, and writes it. *)
Definition worker_step (w : Writer) : outcome Writer :=
  match queue w with
  | [] => Returns w
  | record :: rest => writeRecord record (set_queue rest w)
  end.

(** [n] turns of the workers, one after the other. *)
Fixpoint run_workers (n : nat) (w : Writer) : outcome Writer :=
  match n with
  | O => Returns w
  | Datatypes.S n' =>
      match worker_step w with
      | Panics m => Panics m
      | Returns w' => run_workers n' w'
      end
  end.

(** The first steps of [w.Stop()] once it goes ahead: the flag is set,
    [w.cancel()] and [close(w.queue)] run. *)
Definition begin_stop (w : Writer) : Writer :=
  emit (Printed "[audit] Stopping audit log writer...")
    {| storage := storage w; queue := queue w; queue_cap := queue_cap w;
       queue_closed := true; workers := workers w;
       stopTimeout := stopTimeout w; cancelled := true;
       started := started w; stopped := true;
       onEnqueueFailed := onEnqueueFailed w;
       onWriteFailed := onWriteFailed w; events := events w |}.

(** [w.Stop()].  [served] is the number of turns the workers take while
    [Stop] waits for them: enough to empty the queue, or fewer when
    [stopTimeout] runs out first. *)
Definition Stop (served : nat) (w : Writer) : outcome (option error * Writer) :=
  if negb (started w) || stopped w then Returns (None, w)
  else
    match run_workers served (begin_stop w) with
    | Panics m => Panics m
    | Returns w2 =>
        let w3 :=
          match queue w2 with
          | [] => emit (Printed "[audit] All audit log writer workers stopped") w2
          | _ => emit (Printed
                        "[audit] Timeout waiting for audit log writer workers to stop")
                   w2
          end in
        match storage w3 with
        | Some st =>
            let (err, st') := Close st in
            Returns (err, set_storage (Some st') w3)
        | None => Returns (None, w3)
        end
    end.

(** [w.GetStats()] *)
Definition GetStats (w : Writer) : Stats :=
  {| QueueLength := if negb (stopped w) then llen (queue w) else 0;
     QueueCap := queue_cap w;
     StatsWorkers := workers w;
     Started := started w;
     Stopped := stopped w |}.

End AsyncWriter.
Arguments Writer S : clear implicits.

(* ================================================================= *)
(** ** mask.go *)

(** The two functions of [github.com/soulteary/secure-kit] the package
    calls. *)
Class Secure := {
  secure_MaskPhone : string -> string;
  secure_MaskEmail : string -> string
}.

(** [MaskDestination(dest, channel)] *)
Definition MaskDestination `{Secure} (dest channel : string) : string :=
  if String.eqb dest EmptyString then EmptyString
  else if String.eqb channel "sms" || String.eqb channel "phone"
  then secure_MaskPhone dest
  else if String.eqb channel "email" then secure_MaskEmail dest
  else "****".

(* ================================================================= *)
(** ** logger.go *)

(** [type Config struct]; [ConfigMaskDestination], [ConfigTTL] and
    [ConfigWriter] are the fields [MaskDestination], [TTL] and [Writer]. *)
Record Config := {
  Enabled : bool;
  ConfigMaskDestination : bool;
  ConfigTTL : Z;
  ConfigWriter : option WriterConfig
}.

(** [DefaultConfig()] *)
Definition DefaultConfig : Config :=
  {| Enabled := true; ConfigMaskDestination := true; ConfigTTL := seven_days;
     ConfigWriter := Some DefaultWriterConfig |}.

Section Facade.
Context {S : Type} {ops : Storage S} {secure : Secure}.

(** Where a logger sends its records.  The two constructors build a logger
    on a storage alone ([writer] nil) or on a writer started on that same
    storage; in the second case the storage object is the one the writer
    holds. *)
Inductive Sink : Type :=
| Direct (storage : option S)
| Async (writer : Writer S).

(** [type Logger struct].  [logCallback] tells whether the callback is
    set; [output] lists the calls of the callback and the lines logged by
    the logger itself. *)
Record Logger := {
  config : Config;
  sink : Sink;
  logCallback : bool;
  output : list Event
}.

(** [NewLogger(storage, config)] *)
Definition NewLogger (storage : option S) (config : option Config) : Logger :=
  {| config := match config with None => DefaultConfig | Some c => c end;
     sink := Direct storage; logCallback := false; output := [] |}.


(** [l.SetLogCallback(fn)] *)
Definition SetLogCallback (l : Logger) : Logger :=
  {| config := config l; sink := sink l; logCallback := true;
     output := output l |}.

Definition set_sink (k : Sink) (l : Logger) : Logger :=
  {| config := config l; sink := k; logCallback := logCallback l;
     output := output l |}.

Definition say (e : Event) (l : Logger) : Logger :=
  {| config := config l; sink := sink l; logCallback := logCallback l;
     output := (output l ++ [e])%list |}.

(** The end of [l.Log]: the callback, when it is set. *)
Definition call_back (record : AuditRecord) (l : Logger) : Logger :=
  if logCallback l then say (LogCallbackCalled record) l else l.

(** [l.Log(ctx, record)], with [now] the value of [time.Now().Unix()];
    the record is returned as the call leaves it. *)
Definition Log (now : Z) (ctx : ctx_t) (record : AuditRecord) (l : Logger)
  : outcome (AuditRecord * Logger) :=
  if negb (Enabled (config l)) then Returns (record, l)
  else
    let record :=
      if Timestamp record =? 0 then SetTimestamp now record else record in
    let record :=
      if ConfigMaskDestination (config l) && nonempty (Destination record)
      then WithDestination
             (MaskDestination (Destination record) (Channel record)) record
      else record in
    match sink l with
    | Async w =>
        match Enqueue record w with
        | Panics m => Panics m
        | Returns (_, w') =>
            Returns (record, call_back record (set_sink (Async w') l))
        end
    | Direct (Some st) =>
        let (err, st') := Write ctx record st in
        let l' := set_sink (Direct (Some st')) l in
        let l' :=
          match err with
          | Some e =>
              say (Printed ("[audit] Failed to write audit record: " ++ e)) l'
          | None => l'
          end in
        Returns (record, call_back record l')
    | Direct None => Returns (record, call_back record l)
    end.


End Facade.
Arguments Logger S : clear implicits.
Arguments Sink S : clear implicits.

(* ================================================================= *)
(** ** A JSON codec to run the model with

    [encoding/json] is not part of the repository.  The statements below
    that hold for every codec are stated for every codec; the statements
    about one run use this one, which writes a record without metadata the
    way [json.Marshal] does (the fields in the order of the struct, the
    [omitempty] ones left out when empty) as long as no string needs an
    escape, and reads back an object of that shape: no white space, no
    escapes, string and integer values only.  Any other line is rejected. *)
Module FlatJSON.

Definition dq : ascii := ascii_of_N 34.

Definition quoted (s : string) : string :=
  String dq (s ++ String dq EmptyString).

Definition str_member (key val : string) : list string :=
  [quoted key ++ ":" ++ quoted val].

Definition str_member_omitempty (key val : string) : list string :=
  if nonempty val then str_member key val else [].

Definition int_member (key : string) (val : Z) : list string :=
  [quoted key ++ ":" ++ itoa val].

Definition int_member_omitempty (key : string) (val : Z) : list string :=
  if val =? 0 then [] else int_member key val.

Definition Marshal (r : AuditRecord) : string :=
  "{" ++ String.concat ","
    (str_member "event_type" (EventType r)
     ++ str_member_omitempty "event_id" (EventID r)
     ++ str_member_omitempty "user_id" (UserID r)
     ++ str_member_omitempty "challenge_id" (ChallengeID r)
     ++ str_member_omitempty "session_id" (SessionID r)
     ++ str_member_omitempty "channel" (Channel r)
     ++ str_member_omitempty "destination" (Destination r)
     ++ str_member_omitempty "purpose" (Purpose r)
     ++ str_member_omitempty "resource" (Resource r)
     ++ str_member "result" (Result r)
     ++ str_member_omitempty "reason" (Reason r)
     ++ str_member_omitempty "provider" (Provider r)
     ++ str_member_omitempty "provider_message_id" (ProviderMessageID r)
     ++ str_member_omitempty "ip" (IP r)
     ++ str_member_omitempty "user_agent" (UserAgent r)
     ++ str_member_omitempty "request_id" (RequestID r)
     ++ str_member_omitempty "trace_id" (TraceID r)
     ++ int_member "timestamp" (Timestamp r)
     ++ int_member_omitempty "duration_ms" (DurationMS r))%list
  ++ "}".

Inductive value : Type :=
| VStr (s : string)
| VInt (n : Z).

(** The bytes up to the next quote, and what follows the quote. *)
Fixpoint until_quote (s : string) : option (string * string) :=
  match s with
  | EmptyString => None
  | String c s' =>
      if Ascii.eqb c dq then Some (EmptyString, s')
      else match until_quote s' with
           | Some (a, b) => Some (String c a, b)
           | None => None
           end
  end.

Definition is_digit (c : ascii) : bool :=
  let n := N_of_ascii c in ((48 <=? n) && (n <=? 57))%N.

(** The value of the leading digits after [acc], how many they are, and
    what follows them. *)
Fixpoint digits (s : string) (acc : Z) (count : nat) : Z * nat * string :=
  match s with
  | String c s' =>
      if is_digit c
      then digits s' (10 * acc + Z.of_N (N_of_ascii c) - 48) (Datatypes.S count)
      else (acc, count, s)
  | EmptyString => (acc, count, s)
  end.

Definition parse_value (s : string) : option (value * string) :=
  match s with
  | String c s' =>
      if Ascii.eqb c dq
      then match until_quote s' with
           | Some (v, rest) => Some (VStr v, rest)
           | None => None
           end
      else if Ascii.eqb c "-"
      then match digits s' 0 O with
           | (_, O, _) => None
           | (n, _, rest) => Some (VInt (- n), rest)
           end
      else match digits s 0 O with
           | (_, O, _) => None
           | (n, _, rest) => Some (VInt n, rest)
           end
  | EmptyString => None
  end.

(** The members of an object after its opening brace. *)
Fixpoint parse_members (fuel : nat) (s : string)
  : option (list (string * value)) :=
  match fuel with
  | O => None
  | Datatypes.S fuel' =>
      match s with
      | String q s1 =>
          if Ascii.eqb q dq
          then match until_quote s1 with
               | Some (key, String colon s2) =>
                   if Ascii.eqb colon ":"
                   then match parse_value s2 with
                        | Some (v, String sep s3) =>
                            if Ascii.eqb sep ","
                            then match parse_members fuel' s3 with
                                 | Some ms => Some ((key, v) :: ms)%list
                                 | None => None
                                 end
                            else if Ascii.eqb sep "}"
                            then match s3 with
                                 | EmptyString => Some [(key, v)]
                                 | _ => None
                                 end
                            else None
                        | _ => None
                        end
                   else None
               | _ => None
               end
          else None
      | EmptyString => None
      end
  end.

Definition str_field (key : string) (ms : list (string * value)) : string :=
  match rget key ms with
  | Some (VStr s) => s
  | _ => EmptyString
  end.

Definition int_field (key : string) (ms : list (string * value)) : Z :=
  match rget key ms with
  | Some (VInt n) => n
  | _ => 0
  end.

Definition Unmarshal (data : string) : option AuditRecord :=
  match data with
  | String c rest =>
      if Ascii.eqb c "{"
      then match parse_members (String.length rest) rest with
           | Some ms =>
               Some {| EventType := str_field "event_type" ms;
                       EventID := str_field "event_id" ms;
                       UserID := str_field "user_id" ms;
                       ChallengeID := str_field "challenge_id" ms;
                       SessionID := str_field "session_id" ms;
                       Channel := str_field "channel" ms;
                       Destination := str_field "destination" ms;
                       Purpose := str_field "purpose" ms;
                       Resource := str_field "resource" ms;
                       Result := str_field "result" ms;
                       Reason := str_field "reason" ms;
                       Provider := str_field "provider" ms;
                       ProviderMessageID := str_field "provider_message_id" ms;
                       IP := str_field "ip" ms;
                       UserAgent := str_field "user_agent" ms;
                       RequestID := str_field "request_id" ms;
                       TraceID := str_field "trace_id" ms;
                       Timestamp := int_field "timestamp" ms;
                       DurationMS := int_field "duration_ms" ms;
                       Metadata := None |}
           | None => None
           end
      else None
  | EmptyString => None
  end.

Definition codec : JSON :=
  {| json_Marshal := Marshal; json_Unmarshal := Unmarshal |}.

End FlatJSON.

(* ================================================================= *)
(** ** Objects the statements about single runs are made on *)

#[local] Existing Instance FlatJSON.codec.

(** A machine with nothing below the root and the usual umask 022. *)
Definition fresh_os : OS := {| umask := 18; files := [] |}.

Definition audit_log : path := ["var"; "log"; "audit"; "audit.log"].

(** An engine that accepts every statement, and one that rejects every
    statement. *)
Definition accepting_db : DB :=
  {| db_answer := fun _ => None; db_executed := [] |}.

Definition rejecting_db : DB :=
  {| db_answer := fun _ => Some "syntax error"; db_executed := [] |}.

Definition bad_table : DatabaseConfig :=
  {| TableName := "bad; drop table x" |}.

(** A file backend whose file the caller has already closed. *)
Definition closed_file_backend : FileStorage * OS :=
  match NewFileStorage fresh_os audit_log with
  | (inl s, os) => snd (FileStorage_Close (s, os))
  | (inr _, os) =>
      ({| filePath := audit_log; file := audit_log; file_closed := true;
          writer_err := None |}, os)
  end.

(** The configuration of the writer of [TestWriter_EnqueueAfterStop]. *)
Definition small_config : WriterConfig :=
  {| QueueSize := 10; Workers := 1; StopTimeout := 0 |}.


(** Stand-ins for the two masking functions of secure-kit. *)
Definition stars : Secure :=
  {| secure_MaskPhone := fun _ => "***"; secure_MaskEmail := fun _ => "***" |}.

(** A logger that is switched off, with a callback set, and a record
    that has neither a timestamp nor a masked destination yet. *)
Definition disabled_config : Config :=
  {| Enabled := false; ConfigMaskDestination := true; ConfigTTL := seven_days;
     ConfigWriter := None |}.

Definition disabled_logger : Logger NoopStorage :=
  SetLogCallback (NewLogger (Some NewNoopStorage) (Some disabled_config)).

Definition unstamped : AuditRecord :=
  WithDestination "user@example.com"
    (NewRecord 0 EventLoginSuccess ResultSuccess).

(** The fan-out in the words of the specification: what each configured
    backend answers to a write and is left as, and the first error of a
    list of answers. *)
Definition entry_answer (ctx : ctx_t) (record : AuditRecord)
    (entry : option AnyStorage) : option error :=
  match entry with
  | None => None
  | Some s => fst (any_Write ctx record s)
  end.

Definition entry_written (ctx : ctx_t) (record : AuditRecord)
    (entry : option AnyStorage) : option AnyStorage :=
  match entry with
  | None => None
  | Some s => Some (snd (any_Write ctx record s))
  end.

Fixpoint first_error (answers : list (option error)) : option error :=
  match answers with
  | [] => None
  | Some e :: _ => Some e
  | None :: rest => first_error rest
  end.

Definition all_nil (ss : list (option AnyStorage)) : Prop :=
  Forall (fun entry => entry = None) ss.

(** A started writer on the no-op backend with one record queued. *)
Definition login_record : AuditRecord :=
  NewRecord 1700000000 EventLoginSuccess ResultSuccess.

Definition started_writer : Writer NoopStorage :=
  match Enqueue login_record
          (Start (NewWriter (Some NewNoopStorage) (Some small_config))) with
  | Returns (_, w) => w
  | Panics _ => NewWriter None None
  end.

Definition stopped_writer_state : Writer NoopStorage :=
  match Stop 1 started_writer with
  | Returns (_, w) => w
  | Panics _ => NewWriter None None
  end.

(** A directory with a log file and a symbolic link to it. *)
Definition linked_os : OS :=
  {| umask := 18;
     files := [ (["tmp"], Dir 493);
                (["tmp"; "target.log"], File 384 "data");
                (["tmp"; "audit.log"], Symlink ["tmp"; "target.log"]) ] |}.

(** Two records of the same second that carry no event id, challenge id
    or user id ([TestRedisStorage_Write_SameSecondNoID]). *)
Definition same_second_1 : AuditRecord :=
  NewRecord 1700000000 EventLoginSuccess ResultSuccess.

Definition same_second_2 : AuditRecord :=
  NewRecord 1700000000 EventLoginFailed ResultFailure.

Definition empty_redis : RedisStorage * Redis := (NewRedisStorage, []).

(** The file backend in the words of the specification: the records of
    the lines that are not empty and decode, and the page of a list of
    records that a filter asks for. *)
Definition records_of_lines {codec : JSON} (lines : list string)
  : list AuditRecord :=
  flat_map
    (fun l =>
       if len (dropCR l) =? 0 then []
       else match json_Unmarshal (dropCR l) with
            | Some r => [r]
            | None => []
            end)
    lines.

Definition page (f : QueryFilter) (records : list AuditRecord)
  : list AuditRecord :=
  firstn (Z.to_nat (Limit f))
    (skipn (Z.to_nat (Offset f))
       (filter (fun r => matchesFilter r f) records)).

(** The filter a query works with. *)
Definition effective (filter : option QueryFilter) : QueryFilter :=
  Normalize (match filter with None => DefaultQueryFilter | Some f => f end).

(** Whether a string holds no newline. *)
Fixpoint one_line (s : string) : bool :=
  match s with
  | EmptyString => true
  | String c s' => negb (Ascii.eqb c newline) && one_line s'
  end.

(** [n] times the byte [c]. *)
Definition repeat_byte (c : ascii) (n : N) : string :=
  N.iter n (String c) EmptyString.

(** The file of [TestFileStorage_Query_OversizedLine]: a record, then a
    line of [MaxRecordJSONSize + 1] bytes. *)
Definition good_line : string :=
  FlatJSON.Marshal (NewRecord 1 EventLoginSuccess ResultSuccess).

Definition oversized_line : string :=
  "{}" ++ repeat_byte zero 1048575.

Definition oversized_content : string :=
  good_line ++ nl ++ oversized_line ++ nl.

Definition tmp_log : path := ["tmp"; "audit.log"].

Definition oversized_os : OS :=
  {| umask := 18;
     files := [ (["tmp"], Dir 493); (tmp_log, File 420 oversized_content) ] |}.

Definition tmp_storage : FileStorage :=
  {| filePath := tmp_log; file := tmp_log; file_closed := false;
     writer_err := None |}.

(** The file of [TestFileStorage_Query_MalformedJSON], with an empty line
    added. *)
Definition malformed_content : string :=
  FlatJSON.Marshal (NewRecord 1234567890 EventLoginSuccess ResultSuccess)
  ++ nl ++ "this is not json" ++ nl ++ nl
  ++ FlatJSON.Marshal (NewRecord 1234567891 EventLogout ResultSuccess) ++ nl.

Definition malformed_os : OS :=
  {| umask := 18;
     files := [ (["tmp"], Dir 493); (tmp_log, File 420 malformed_content) ] |}.


(** A file storage that is open on the file its path leads to, the file
    holding [content]. *)
Definition open_on (s : FileStorage) (os : OS) (content : string) : Prop :=
  file_closed s = false /\ writer_err s = None
  /\ filePath s <> []
  /\ resolve 40 (files os) (filePath s) = Some (file s)
  /\ exists mode, lookup (file s) (files os) = Some (File mode content).


(** A query for the [n] newest records. *)
Definition newest (n : Z) : option QueryFilter :=
  Some (WithLimit n DefaultQueryFilter).










(** Three records of successive seconds. *)
Definition three_records : list AuditRecord :=
  [ NewRecord 1700000001 EventLoginSuccess ResultSuccess;
    WithUserID "user2" (NewRecord 1700000002 EventLoginFailed ResultFailure);
    NewRecord 1700000003 EventLogout ResultSuccess ].

(** What the turns of the workers leave alone: the flags of the writer,
    and the absence of a backend. *)
Definition same_control {S : Type} (w w' : Writer S) : Prop :=
  started w' = started w /\ stopped w' = stopped w
  /\ queue_closed w' = queue_closed w /\ cancelled w' = cancelled w
  /\ (storage w = None -> storage w' = None).

(* ----------------------------------------------------------------- *)
(** ** Further objects: the writer *)

(** What a caller, or a worker, can do to a writer. *)
Inductive WriterOp : Type :=
| DoStart
| DoEnqueue (record : AuditRecord)
| DoWorkerTurn
| DoStop (served : nat)
| DoOnEnqueueFailed
| DoOnWriteFailed.

(** One call on a writer, and a sequence of calls. *)
Definition apply_op {S : Type} {ops : Storage S} (o : WriterOp) (w : Writer S)
  : outcome (Writer S) :=
  match o with
  | DoStart => Returns (Start w)
  | DoEnqueue record =>
      match Enqueue record w with
      | Returns (_, w') => Returns w'
      | Panics m => Panics m
      end
  | DoWorkerTurn => worker_step w
  | DoStop served =>
      match Stop served w with
      | Returns (_, w') => Returns w'
      | Panics m => Panics m
      end
  | DoOnEnqueueFailed => Returns (OnEnqueueFailed w)
  | DoOnWriteFailed => Returns (OnWriteFailed w)
  end.

Fixpoint apply_ops {S : Type} {ops : Storage S} (os : list WriterOp)
    (w : Writer S) : outcome (Writer S) :=
  match os with
  | [] => Returns w
  | o :: rest =>
      match apply_op o w with
      | Returns w' => apply_ops rest w'
      | Panics m => Panics m
      end
  end.

(** What holds of a writer at any time. *)
Definition writer_invariant {S : Type} (w : Writer S) : Prop :=
  0 < queue_cap w /\ 0 < workers w /\ 0 < stopTimeout w
  /\ llen (queue w) <= queue_cap w
  /\ queue_closed w = stopped w /\ cancelled w = stopped w
  /\ (stopped w = true -> started w = true).


(** A backend that keeps what it is given and refuses the records of a
    user named [nobody]. *)
Record Ledger := { kept : list AuditRecord; closed_times : Z }.

#[export] Instance Ledger_Storage : Storage Ledger := {
  Write := fun _ r s =>
    if String.eqb (UserID r) "nobody" then (Some "refused", s)
    else (None, {| kept := (kept s ++ [r])%list;
                   closed_times := closed_times s |});
  Query := fun _ _ s => (inl (kept s), s);
  Close := fun s =>
    (None, {| kept := kept s; closed_times := closed_times s + 1 |})
}.

Definition empty_ledger : Ledger := {| kept := []; closed_times := 0 |}.

Definition refused_record : AuditRecord :=
  WithUserID "nobody" (NewRecord 1700000005 EventLoginFailed ResultFailure).

(** A started writer on a ledger, with three records queued, the second
    of which the ledger refuses. *)
Definition busy_writer : Writer Ledger :=
  match apply_ops [DoStart; DoOnWriteFailed; DoEnqueue login_record;
                   DoEnqueue refused_record; DoEnqueue same_second_2]
          (NewWriter (Some empty_ledger) (Some small_config)) with
  | Returns w => w
  | Panics _ => NewWriter None None
  end.
(** What neither the workers nor [Stop] change. *)
Definition same_setup {S : Type} (w w' : Writer S) : Prop :=
  queue_cap w' = queue_cap w /\ workers w' = workers w
  /\ stopTimeout w' = stopTimeout w
  /\ onEnqueueFailed w' = onEnqueueFailed w
  /\ onWriteFailed w' = onWriteFailed w.

(* ----------------------------------------------------------------- *)
(** ** Further objects: the fan-out and the facade *)

(** What a configured backend answers to [Close] and is left as. *)
Definition entry_close_answer (entry : option AnyStorage) : option error :=
  match entry with
  | None => None
  | Some s => fst (any_Close s)
  end.

Definition entry_closed (entry : option AnyStorage) : option AnyStorage :=
  match entry with
  | None => None
  | Some s => Some (snd (any_Close s))
  end.

(** The record [Log] hands on, in the words of the source: the timestamp
    is set to the clock's when it is zero, and the destination is masked
    when masking is configured and there is a destination. *)
Definition prepared {secure : Secure} (config : Config) (now : Z)
    (record : AuditRecord) : AuditRecord :=
  let stamped :=
    SetTimestamp (if Timestamp record =? 0 then now else Timestamp record)
      record in
  if ConfigMaskDestination config && nonempty (Destination stamped)
  then WithDestination
         (MaskDestination (Destination stamped) (Channel stamped)) stamped
  else stamped.

(** [l.Query(ctx, filter)] *)
Definition Logger_Query {S : Type} {ops : Storage S} (ctx : ctx_t)
    (filter : option QueryFilter) (l : Logger S)
  : (list AuditRecord + error) * Logger S :=
  match sink l with
  | Direct None => (inr "storage not configured", l)
  | Direct (Some st) =>
      let (res, st') := Query ctx filter st in
      (res, set_sink (Direct (Some st')) l)
  | Async w =>
      match storage w with
      | None => (inr "storage not configured", l)
      | Some st =>
          let (res, st') := Query ctx filter st in
          (res, set_sink (Async (set_storage (Some st') w)) l)
      end
  end.

(** [l.GetStats()] *)
Definition Logger_GetStats {S : Type} (l : Logger S) : option Stats :=
  match sink l with
  | Async w => Some (GetStats w)
  | Direct _ => None
  end.



(** Two backends of a fan-out: a ledger, and a file backend whose file is
    closed. *)
Definition ledger_entry : AnyStorage :=
  {| backend := Ledger; backend_ops := Ledger_Storage;
     backend_state := empty_ledger |}.

Definition closed_file_entry : AnyStorage :=
  {| backend := FileStorage * OS; backend_ops := FileStorage_Storage;
     backend_state := closed_file_backend |}.

(* ----------------------------------------------------------------- *)
(** ** Further objects: the file backend *)

(** A filter with a page: [f.WithLimit(limit).WithOffset(offset)]. *)
Definition paged (limit offset : Z) (f : QueryFilter) : option QueryFilter :=
  Some (WithOffset offset (WithLimit limit f)).

(** A storage open on the file of [malformed_os]. *)
Definition malformed_backend : FileStorage * OS := (tmp_storage, malformed_os).
(* ----------------------------------------------------------------- *)
(** ** [file.go]: rotation *)

(** Every binding of [p] removed. *)
Fixpoint unbind (p : path) (fs : list (path * node)) : list (path * node) :=
  match fs with
  | [] => []
  | (q, n) :: fs' =>
      if path_eqb p q then unbind p fs' else (q, n) :: unbind p fs'
  end.

(** Whether [q] lies at or below [p]. *)
Fixpoint below (p q : path) : bool :=
  match p, q with
  | [], _ => true
  | a :: p', b :: q' => String.eqb a b && below p' q'
  | _ :: _, [] => false
  end.

(** [q] with its leading [old] replaced by [new], when [q] lies at or
    below [old]. *)
Definition rebase (old new q : path) : path :=
  if below old q then (new ++ skipn (List.length old) q)%list else q.

(** Whether a directory has entries. *)
Definition has_entries (p : path) (fs : list (path * node)) : bool :=
  existsb (fun e => below p (fst e) && negb (path_eqb p (fst e))) fs.

(** [os.Rename(oldpath, newpath)]: the name itself is moved, a symbolic
    link is not followed.  A file or a link replaces what is at [new]
    unless that is a directory; a directory moves with all below it, and
    only onto nothing or onto an empty directory. *)
Definition os_Rename (os : OS) (old new : path) : option error * OS :=
  match lookup old (files os) with
  | None => (Some "rename: no such file or directory", os)
  | Some n =>
      if path_eqb old new then (None, os)
      else
        match os_Stat os (filepath_Dir new) with
        | Some (Dir _) =>
            match n, lookup new (files os) with
            | Dir _, Some (Dir _) =>
                if has_entries new (files os)
                then (Some "rename: directory not empty", os)
                else
                  (None,
                   set_files
                     (map (fun e => (rebase old new (fst e), snd e))
                        (unbind new (files os))) os)
            | Dir _, Some _ => (Some "rename: not a directory", os)
            | Dir _, None =>
                if below old new
                then (Some "rename: invalid argument", os)
                else
                  (None,
                   set_files
                     (map (fun e => (rebase old new (fst e), snd e))
                        (files os)) os)
            | _, Some (Dir _) => (Some "rename: is a directory", os)
            | _, _ =>
                (None, set_files (bind new n (unbind old (files os))) os)
            end
        | _ => (Some "rename: no such file or directory", os)
        end
  end.

(** [fmt.Sprintf("%s.%s", filePath, timestamp)]: the last component of
    the path with a dot and the time stamp after it. *)
Definition rotated_path (filePath : path) (timestamp : string) : path :=
  (removelast filePath
   ++ [(last filePath EmptyString ++ "." ++ timestamp)%string])%list.

(** [s.Rotate()]; [timestamp] is [time.Now().Format("20060102-150405")].
    The writer's buffer is empty between calls, so [Flush] only reports
    the error the writer keeps.  Once the file is closed it stays closed
    when a later step fails. *)
Definition Rotate (timestamp : string) (st : FileStorage * OS)
  : option error * (FileStorage * OS) :=
  let (s, os) := st in
  match writer_err s with
  | Some e => (Some ("failed to flush writer: " ++ e), st)
  | None =>
      if file_closed s
      then (Some "failed to close file: close: file already closed", st)
      else
        let closed :=
          {| filePath := filePath s; file := file s; file_closed := true;
             writer_err := None |} in
        let rotatedPath := rotated_path (filePath s) timestamp in
        match os_Rename os (filePath s) rotatedPath with
        | (Some e, os1) =>
            (Some ("failed to rename file: " ++ e), (closed, os1))
        | (None, os1) =>
            match os_OpenFile_append os1 (filePath s) 420 (* 0644 *) with
            | (inr e, os2) =>
                (Some ("failed to open new file: " ++ e), (closed, os2))
            | (inl f, os2) =>
                (None,
                 ({| filePath := filePath s; file := f; file_closed := false;
                     writer_err := None |}, os2))
            end
        end
  end.

(** The same log with a directory where the rotated file would go. *)
Definition blocked_os : OS :=
  {| umask := 18;
     files := [(["tmp"], Dir 493);
               (["tmp"; "audit.log"], File 420 ("first" ++ nl));
               (["tmp"; "audit.log.20240101-120000"], Dir 493)] |}.

(* ----------------------------------------------------------------- *)
(** ** [redis.go]: cleaning the index *)

(** The order of [ZRANGE]: lower scores first, and among equal scores the
    lexicographically smaller member first. *)
Definition zrange_before (a b : string * Z) : bool :=
  (snd a <? snd b) || ((snd a =? snd b) && String.ltb (fst a) (fst b)).

(** [ZRANGE key 0 -1] *)
Definition redis_ZRange_all (db : Redis) (key : string) : list string + error :=
  match rget key db with
  | None => inl []
  | Some (RString _ _) => inr WRONGTYPE
  | Some (RZSet ms) => inl (map fst (sort_by zrange_before ms))
  end.

(** [EXISTS key] *)
Definition redis_Exists (db : Redis) (key : string) : Z :=
  match rget key db with
  | Some _ => 1
  | None => 0
  end.

(** The loop of [Cleanup].  [removed] counts the calls of [ZREM] that
    returned no error; it is bounded by the number of keys. *)
Fixpoint cleanup_loop (setKey : string) (keys : list string) (db : Redis)
    (removed : Z) : Z * Redis :=
  match keys with
  | [] => (removed, db)
  | key :: rest =>
      if redis_Exists db key =? 0
      then
        match redis_ZRem db setKey key with
        | (None, db') => cleanup_loop setKey rest db' (removed + 1)
        | (Some _, db') => cleanup_loop setKey rest db' removed
        end
      else cleanup_loop setKey rest db removed
  end.

(** [s.Cleanup(ctx)].  A client that is closed, or a context that is
    done, fails the first command; the commands of the loop then have no
    error of the client to pass over. *)
Definition RedisStorage_Cleanup (ctx : ctx_t) (st : RedisStorage * Redis)
  : (Z * option error) * (RedisStorage * Redis) :=
  let (s, db) := st in
  let setKey := keyPrefix s ++ "index" in
  match client_err s ctx with
  | Some e => ((0, Some ("failed to get keys: " ++ e)), st)
  | None =>
      match redis_ZRange_all db setKey with
      | inr e => ((0, Some ("failed to get keys: " ++ e)), st)
      | inl keys =>
          let (removed, db') := cleanup_loop setKey keys db 0 in
          ((removed, None), (s, db'))
      end
  end.

(** The members of the index of a storage, with their scores. *)
Definition index_members (setKey : string) (db : Redis) : list (string * Z) :=
  match rget setKey db with
  | Some (RZSet ms) => ms
  | _ => []
  end.

Definition key_exists (db : Redis) (k : string) : bool :=
  match rget k db with
  | Some _ => true
  | None => false
  end.

(** A server whose index lists two keys that are gone beside one that is
    there. *)
Definition stale_redis : RedisStorage * Redis :=
  (NewRedisStorage,
   [("audit:index",
     RZSet [("audit:1700000001", 1700000001);
            ("audit:1700000002", 1700000002);
            ("audit:1700000003", 1700000003)]);
    ("audit:1700000002",
     RString (json_Marshal (NewRecord 1700000002 EventLogout ResultSuccess))
       seven_days)]).

(** The server after [three_records] were written to it. *)
Definition stocked_redis : RedisStorage * Redis :=
  snd (write_all context_Background three_records empty_redis).

(* ----------------------------------------------------------------- *)
(** ** [mask.go]: [MaskIP] *)

Definition dot : ascii := ascii_of_N 46.

(** The loop of [MaskIP] over the bytes of the address from position [i]
    on: the position of the first dot and of the last one, [-1] for
    none.  A dot is one byte and no part of a longer character, so the
    positions [range] gives are those of the bytes. *)
Fixpoint scan_dots (s : string) (i firstDot lastDot : Z) : Z * Z :=
  match s with
  | EmptyString => (firstDot, lastDot)
  | String c s' =>
      if Ascii.eqb c dot
      then scan_dots s' (i + 1) (if firstDot =? -1 then i else firstDot) i
      else scan_dots s' (i + 1) firstDot lastDot
  end.

(** [MaskIP(ip)] *)
Definition MaskIP (ip : string) : string :=
  if String.eqb ip EmptyString then EmptyString
  else
    let masked :=
      if len ip >? 8
      then prefix_of 4 ip ++ "****" ++ suffix_from (String.length ip - 4) ip
      else "****" in
    if len ip >=? 7
    then
      let (firstDot, lastDot) := scan_dots ip 0 (-1) (-1) in
      if negb (firstDot =? -1) && negb (lastDot =? firstDot)
      then prefix_of (Z.to_nat (firstDot + 1)) ip ++ "***"
           ++ suffix_from (Z.to_nat lastDot) ip
      else masked
    else masked.

(** Whether a string holds no dot. *)
Fixpoint dot_free (s : string) : bool :=
  match s with
  | EmptyString => true
  | String c s' => negb (Ascii.eqb c dot) && dot_free s'
  end.
(* ----------------------------------------------------------------- *)
(** ** Further objects: opening a log that is there *)



(** A connection that is never asked for. *)
Definition no_connection (driver dsn : string) : DB + error :=
  inr "failed to open database".


(* ================================================================= *)
(** * Properties *)

(* ----------------------------------------------------------------- *)
(** ** The query filter *)

Lemma Normalize_Limit (f : QueryFilter) :
  Limit (Normalize f) =
  if Limit f <=? 0 then 100 else if Limit f >? 1000 then 1000 else Limit f.
Proof.
  unfold Normalize.
  destruct (Limit f <=? 0) eqn:E1; cbn;
    [ | destruct (Limit f >? 1000) eqn:E2; cbn ];
    destruct (Offset f <? 0); reflexivity.
Qed.

Lemma Normalize_Offset (f : QueryFilter) :
  Offset (Normalize f) = if Offset f <? 0 then 0 else Offset f.
Proof.
  unfold Normalize.
  destruct (Limit f <=? 0) eqn:E1; cbn;
    [ | destruct (Limit f >? 1000) eqn:E2; cbn ];
    destruct (Offset f <? 0); reflexivity.
Qed.

Lemma Normalize_fixed (f : QueryFilter) :
  1 <= Limit f <= 1000 -> 0 <= Offset f -> Normalize f = f.
Proof.
  intros HL HO. unfold Normalize.
  replace (Limit f <=? 0) with false by (symmetry; apply Z.leb_gt; lia).
  replace (Limit f >? 1000) with false
    by (symmetry; rewrite Z.gtb_ltb; apply Z.ltb_ge; lia).
  replace (Offset f <? 0) with false by (symmetry; apply Z.ltb_ge; lia).
  reflexivity.
Qed.

Lemma Normalize_range (f : QueryFilter) :
  1 <= Limit (Normalize f) <= 1000 /\ 0 <= Offset (Normalize f).
Proof.
  rewrite Normalize_Limit, Normalize_Offset.
  destruct (Limit f <=? 0) eqn:E1; [ | destruct (Limit f >? 1000) eqn:E2 ];
    destruct (Offset f <? 0) eqn:E3;
    try apply Z.leb_gt in E1; try rewrite Z.gtb_ltb in E2;
    try apply Z.ltb_ge in E2; try apply Z.ltb_ge in E3; lia.
Qed.

(** C8. [Normalize] clamps [Limit] into 1..1000 (100 for a limit that is
    not positive, 1000 for one above 1000, the limit itself otherwise),
    clamps [Offset] to be at least 0 (0 for a negative offset, the offset
    itself otherwise), and normalizing twice gives the same filter as
    normalizing once. *)
Theorem Normalize_clamps_and_is_idempotent (f : QueryFilter) :
  1 <= Limit (Normalize f) <= 1000
  /\ Limit (Normalize f) =
       (if Limit f <=? 0 then 100
        else if Limit f >? 1000 then 1000 else Limit f)
  /\ 0 <= Offset (Normalize f)
  /\ Offset (Normalize f) = (if Offset f <? 0 then 0 else Offset f)
  /\ Normalize (Normalize f) = Normalize f.
Proof.
  pose proof (Normalize_range f) as [HL HO].
  repeat split; try tauto.
  - apply Normalize_Limit.
  - apply Normalize_Offset.
  - apply Normalize_fixed; assumption.
Qed.

(* ----------------------------------------------------------------- *)
(** ** The facade *)

(** C10. With [Enabled] false, [Log] returns at once: the record comes
    back as it was given (no timestamp assigned, destination not masked)
    and the logger is unchanged, which covers the storage, the queue of
    the writer and the list of callback calls. *)
Theorem Log_disabled_changes_nothing
    {S : Type} {ops : Storage S} {secure : Secure}
    (now : Z) (ctx : ctx_t) (record : AuditRecord) (l : Logger S) :
  Enabled (config l) = false ->
  Log now ctx record l = Returns (record, l).
Proof.
  intros Hoff. unfold Log. rewrite Hoff. reflexivity.
Qed.

Lemma Log_disabled_witness :
  Enabled (config disabled_logger) = false
  /\ Log (secure := stars) 1700000000 context_Background unstamped
       disabled_logger
     = Returns (unstamped, disabled_logger).
Proof.
  split; [ reflexivity | apply Log_disabled_changes_nothing; reflexivity ].
Defined.

(* ----------------------------------------------------------------- *)
(** ** The fan-out *)

Lemma multi_write_spec (ctx : ctx_t) (record : AuditRecord)
    (ss : list (option AnyStorage)) (firstErr : option error) :
  multi_write ctx record ss firstErr =
  (match firstErr with
   | Some e => Some e
   | None => first_error (map (entry_answer ctx record) ss)
   end,
   map (entry_written ctx record) ss).
Proof.
  revert firstErr. induction ss as [ | [s | ] rest IH ]; intros firstErr.
  - destruct firstErr; reflexivity.
  - cbn [multi_write map entry_answer entry_written first_error].
    destruct (any_Write ctx record s) as [err s'] eqn:E.
    rewrite IH. cbn [fst snd].
    destruct firstErr as [e0 | ], err as [e | ]; reflexivity.
  - cbn [multi_write map entry_answer entry_written first_error].
    rewrite IH. reflexivity.
Qed.

Lemma multi_query_all_nil (ctx : ctx_t) (filter : option QueryFilter)
    (ss : list (option AnyStorage)) :
  all_nil ss -> multi_query ctx filter ss = (inr "no storage configured", ss).
Proof.
  induction 1 as [ | entry rest Hnil _ IH ]; [ reflexivity | ].
  subst entry. cbn [multi_query]. rewrite IH. reflexivity.
Qed.

Lemma multi_query_first (ctx : ctx_t) (filter : option QueryFilter)
    (nils : list (option AnyStorage)) (s : AnyStorage)
    (rest : list (option AnyStorage)) :
  all_nil nils ->
  multi_query ctx filter (nils ++ Some s :: rest)%list =
  (fst (any_Query ctx filter s),
   (nils ++ Some (snd (any_Query ctx filter s)) :: rest)%list).
Proof.
  induction 1 as [ | entry nils' Hnil _ IH ].
  - cbn [app multi_query]. destruct (any_Query ctx filter s); reflexivity.
  - subst entry. cbn [app multi_query]. rewrite IH. reflexivity.
Qed.

(** C9. For every list of configured backends: [Write] calls [Write] once
    on every backend that is not nil, whatever the earlier ones answered,
    and returns the first error among the answers (nil when there is
    none); [Query] returns the answer of the first backend that is not nil
    and leaves every other backend as it was, and fails with "no storage
    configured" when every entry is nil. *)
Theorem MultiStorage_writes_all_reads_first
    (ctx : ctx_t) (record : AuditRecord) (filter : option QueryFilter) :
  (forall ss,
     MultiStorage_Write ctx record (NewMultiStorage ss) =
     (first_error (map (entry_answer ctx record) ss),
      NewMultiStorage (map (entry_written ctx record) ss)))
  /\ (forall nils s rest,
        all_nil nils ->
        MultiStorage_Query ctx filter
          (NewMultiStorage (nils ++ Some s :: rest)%list) =
        (fst (any_Query ctx filter s),
         NewMultiStorage
           (nils ++ Some (snd (any_Query ctx filter s)) :: rest)%list))
  /\ (forall nils,
        all_nil nils ->
        MultiStorage_Query ctx filter (NewMultiStorage nils) =
        (inr "no storage configured", NewMultiStorage nils)).
Proof.
  repeat split.
  - intros ss. unfold MultiStorage_Write, NewMultiStorage. cbn [storages].
    rewrite multi_write_spec. reflexivity.
  - intros nils s rest Hnil.
    unfold MultiStorage_Query, NewMultiStorage. cbn [storages].
    rewrite multi_query_first by assumption. reflexivity.
  - intros nils Hnil.
    unfold MultiStorage_Query, NewMultiStorage. cbn [storages].
    rewrite multi_query_all_nil by assumption. reflexivity.
Qed.

(* ----------------------------------------------------------------- *)
(** ** The asynchronous writer *)

Section WriterFacts.
Context {S : Type} {ops : Storage S}.

Lemma same_control_refl (w : Writer S) : same_control w w.
Proof. unfold same_control; tauto. Qed.

Lemma writeRecord_returns (record : AuditRecord) (w : Writer S) (st : S) :
  storage w = Some st ->
  exists w' st', writeRecord record w = Returns w'
                 /\ storage w' = Some st' /\ same_control w w'.
Proof.
  intros Hst. unfold writeRecord. rewrite Hst.
  destruct (Write _ record st) as [err st'].
  exists (match err with
          | None => set_storage (Some st') w
          | Some e =>
              if onWriteFailed w
              then emit (WriteFailedCalled record e) (set_storage (Some st') w)
              else emit (Printed ("[audit] Worker failed to write record: " ++ e))
                     (set_storage (Some st') w)
          end), st'.
  destruct err as [e | ]; [ destruct (onWriteFailed w) | ];
    (split; [ reflexivity | split; [ reflexivity | ] ]);
    unfold same_control; cbn; rewrite Hst; repeat split; discriminate.
Qed.

Lemma run_workers_returns (n : nat) (w : Writer S) (st : S) :
  storage w = Some st ->
  exists w' st', run_workers n w = Returns w'
                 /\ storage w' = Some st' /\ same_control w w'.
Proof.
  revert w st. induction n as [ | n IH ]; intros w st Hst.
  - exists w, st. split; [ reflexivity | split; [ assumption | ] ].
    apply same_control_refl.
  - cbn [run_workers]. unfold worker_step.
    destruct (queue w) as [ | record rest ] eqn:Hq.
    + apply IH with (st := st). assumption.
    + destruct (writeRecord_returns record (set_queue rest w) st Hst)
        as (w1 & st1 & Hw & Hst1 & Hc1).
      rewrite Hw.
      destruct (IH w1 st1 Hst1) as (w2 & st2 & Hr & Hst2 & Hc2).
      exists w2, st2. split; [ assumption | split; [ assumption | ] ].
      unfold same_control in *. cbn in Hc1.
      destruct Hc1 as (a1 & a2 & a3 & a4 & a5).
      destruct Hc2 as (b1 & b2 & b3 & b4 & b5).
      rewrite b1, b2, b3, b4, a1, a2, a3, a4.
      repeat split. intros Hnone. rewrite Hnone in Hst. discriminate.
Qed.

(** A call of [Stop] on a writer that is already stopped, or was never
    started, does nothing. *)
Lemma Stop_again (served : nat) (w : Writer S) :
  stopped w = true -> Stop served w = Returns (None, w).
Proof.
  intros Hs. unfold Stop. rewrite Hs, orb_true_r. reflexivity.
Qed.

Lemma writeRecord_control (record : AuditRecord) (w w' : Writer S) :
  writeRecord record w = Returns w' -> same_control w w'.
Proof.
  unfold writeRecord. destruct (storage w) as [st | ] eqn:Hst; [ | discriminate ].
  destruct (Write _ record st) as [err st'].
  destruct err as [e | ]; [ destruct (onWriteFailed w) | ];
    intros H; injection H as <-; unfold same_control; cbn;
    rewrite Hst; repeat split; discriminate.
Qed.

Lemma run_workers_control (n : nat) (w w' : Writer S) :
  run_workers n w = Returns w' -> same_control w w'.
Proof.
  revert w. induction n as [ | n IH ]; intros w; cbn [run_workers].
  - intros H; injection H as <-. apply same_control_refl.
  - unfold worker_step. destruct (queue w) as [ | record rest ] eqn:Hq.
    + apply IH.
    + destruct (writeRecord record (set_queue rest w)) as [w1 | m] eqn:Hw;
        [ | discriminate ].
      intros Hr. apply writeRecord_control in Hw. apply IH in Hr.
      unfold same_control in *. cbn in Hw.
      destruct Hw as (a1 & a2 & a3 & a4 & a5).
      destruct Hr as (b1 & b2 & b3 & b4 & b5).
      rewrite b1, b2, b3, b4, a1, a2, a3, a4. repeat split.
      intros Hnone. auto.
Qed.

Lemma run_workers_idle (n : nat) (w : Writer S) :
  queue w = [] -> run_workers n w = Returns w.
Proof.
  intros Hq. induction n as [ | n IH ]; [ reflexivity | ].
  cbn [run_workers]. unfold worker_step. rewrite Hq. exact IH.
Qed.

(** The first [Stop] of a started writer on a backend: it returns, with
    the answer the backend's [Close] gives in the state the workers left
    it in, and leaves the writer stopped with its queue closed. *)
Lemma Stop_first (served : nat) (w : Writer S) (st : S) :
  started w = true -> stopped w = false -> storage w = Some st ->
  exists w1 w2 st0,
    run_workers served (begin_stop w) = Returns w2
    /\ storage w2 = Some st0
    /\ Stop served w = Returns (fst (Close st0), w1)
    /\ storage w1 = Some (snd (Close st0))
    /\ started w1 = true /\ stopped w1 = true /\ queue_closed w1 = true.
Proof.
  intros Hstarted Hstopped Hst. unfold Stop.
  rewrite Hstarted, Hstopped. cbn [negb orb].
  destruct (run_workers_returns served (begin_stop w) st)
    as (w2 & st2 & Hr & Hst2 & Hc); [ exact Hst | rewrite Hr ].
  unfold same_control in Hc. cbn in Hc.
  destruct Hc as (c1 & c2 & c3 & c4 & _).
  destruct (queue w2) as [ | record rest ];
    cbn [storage emit]; rewrite Hst2;
    destruct (Close st2) as [err st'] eqn:HC;
    eexists; exists w2, st2; rewrite HC; cbn [fst snd];
    (split; [ reflexivity | ]); (split; [ assumption | ]);
    (split; [ reflexivity | ]); cbn; rewrite c1, c2, c3; repeat split;
    assumption.
Qed.

(** The first [Stop] of a started writer without a backend and with an
    empty queue. *)
Lemma Stop_first_nil (served : nat) (w : Writer S) :
  started w = true -> stopped w = false ->
  storage w = None -> queue w = [] ->
  exists w1,
    Stop served w = Returns (None, w1)
    /\ started w1 = true /\ stopped w1 = true /\ queue_closed w1 = true.
Proof.
  intros Hstarted Hstopped Hst Hq. unfold Stop.
  rewrite Hstarted, Hstopped. cbn [negb orb].
  rewrite run_workers_idle by (cbn; assumption).
  cbn. rewrite Hq. cbn. rewrite Hst. eexists. split; [ reflexivity | ].
  cbn. rewrite Hstarted. repeat split.
Qed.

End WriterFacts.

(** C1. Once [Stop] has gone through on a started writer, [Enqueue] does
    not return false: the queue is closed and the send panics. *)
Theorem Enqueue_after_Stop_panics {S : Type} {ops : Storage S}
    (served : nat) (w w' : Writer S) (err : option error)
    (record : AuditRecord) :
  started w = true -> stopped w = false ->
  Stop served w = Returns (err, w') ->
  Enqueue record w' = Panics "send on closed channel".
Proof.
  intros Hstarted Hstopped. unfold Stop.
  rewrite Hstarted, Hstopped. cbn [negb orb].
  destruct (run_workers served (begin_stop w)) as [w2 | m] eqn:Hr;
    [ | discriminate ].
  apply run_workers_control in Hr. destruct Hr as (_ & _ & Hclosed & _).
  cbn in Hclosed. intros Hstop.
  assert (queue_closed w' = true) as Hq.
  { destruct (queue w2); cbn [storage emit] in Hstop;
      (destruct (storage w2) as [st | ];
       [ destruct (Close st) as [e st']; injection Hstop as _ <-
       | injection Hstop as _ <- ]); cbn; assumption. }
  unfold Enqueue. rewrite Hq. reflexivity.
Qed.

Lemma Enqueue_after_Stop_witness :
  Stop 1 started_writer = Returns (None, stopped_writer_state)
  /\ Enqueue login_record stopped_writer_state
     = Panics "send on closed channel".
Proof.
  split; [ reflexivity | ].
  apply (Enqueue_after_Stop_panics 1 started_writer stopped_writer_state None);
    reflexivity.
Defined.

(** C7, as the code has it. For a started writer that holds a backend, or
    holds none and has an empty queue: the first [Stop] returns what the
    backend's [Close] returns (no error when there is no backend) and
    leaves the [Stopped] flag true; the second [Stop] returns no error
    and changes nothing, so no step of the shutdown runs again. *)
Theorem Stop_twice {S : Type} {ops : Storage S}
    (served served' : nat) (w : Writer S) :
  started w = true -> stopped w = false ->
  (forall st, storage w = Some st ->
     exists w1 w2 st0,
       run_workers served (begin_stop w) = Returns w2
       /\ storage w2 = Some st0
       /\ Stop served w = Returns (fst (Close st0), w1)
       /\ storage w1 = Some (snd (Close st0))
       /\ Stopped (GetStats w1) = true
       /\ Stop served' w1 = Returns (None, w1))
  /\ (storage w = None -> queue w = [] ->
      exists w1,
        Stop served w = Returns (None, w1)
        /\ Stopped (GetStats w1) = true
        /\ Stop served' w1 = Returns (None, w1)).
Proof.
  intros Hstarted Hstopped. split.
  - intros st Hst.
    destruct (Stop_first served w st Hstarted Hstopped Hst)
      as (w1 & w2 & st0 & Hr & Hst0 & Hstop & Hsto & _ & Hs1 & _).
    exists w1, w2, st0. repeat split; try assumption.
    apply Stop_again. assumption.
  - intros Hst Hq.
    destruct (Stop_first_nil served w Hstarted Hstopped Hst Hq)
      as (w1 & Hstop & _ & Hs1 & _).
    exists w1. repeat split; try assumption.
    apply Stop_again. assumption.
Qed.

Lemma Stop_twice_witness :
  started started_writer = true /\ stopped started_writer = false
  /\ exists w1 w2 st0,
       run_workers 1 (begin_stop started_writer) = Returns w2
       /\ storage w2 = Some st0
       /\ Stop 1 started_writer = Returns (fst (Close st0), w1)
       /\ storage w1 = Some (snd (Close st0))
       /\ Stopped (GetStats w1) = true
       /\ Stop 0 w1 = Returns (None, w1).
Proof.
  split; [ reflexivity | split; [ reflexivity | ] ].
  apply (proj1 (Stop_twice 1 0 started_writer eq_refl eq_refl) NewNoopStorage).
  reflexivity.
Defined.

(** C7 as stated fails: on a backend whose [Close] fails (here a file
    backend whose file was closed before), the first [Stop] of a started
    writer returns that error. *)
Lemma Stop_returns_the_error_of_Close :
  exists w1,
    Stop 0 (Start (NewWriter (Some closed_file_backend) None))
    = Returns (Some "close: file already closed", w1).
Proof.
  eexists. vm_compute. reflexivity.
Qed.

(* ----------------------------------------------------------------- *)
(** ** The relational backend *)

(** C2. The table name of the configuration is not checked: with the
    name [bad; drop table x], [NewDatabaseStorageFromDB] gives the engine
    the statement cut off at the semicolon, whatever the engine and the
    dialect; on an engine that accepts what it is given the construction
    succeeds, after twenty statements, and on one that rejects the first
    statement it fails with the engine's error after that statement.
    [NewDatabaseStorageWithConfig] does the same once it is connected. *)
Theorem bad_table_name_reaches_the_engine :
  (forall answer,
     hd_error
       (db_executed
          (snd (NewDatabaseStorageFromDB
                  {| db_answer := answer; db_executed := [] |}
                  "sqlite" (Some bad_table))))
     = Some "CREATE TABLE IF NOT EXISTS bad")
  /\ (forall answer,
        hd_error
          (db_executed
             (snd (NewDatabaseStorageFromDB
                     {| db_answer := answer; db_executed := [] |}
                     "postgres" (Some bad_table))))
        = Some "CREATE TABLE IF NOT EXISTS bad")
  /\ (forall answer,
        hd_error
          (db_executed
             (snd (NewDatabaseStorageFromDB
                     {| db_answer := answer; db_executed := [] |}
                     "mysql" (Some bad_table))))
        = Some "CREATE TABLE IF NOT EXISTS bad")
  /\ (exists s d,
        NewDatabaseStorageFromDB accepting_db "sqlite" (Some bad_table)
        = (inl s, d)
        /\ tableName s = "bad; drop table x"
        /\ List.length (db_executed d) = 20%nat)
  /\ (exists e d,
        NewDatabaseStorageFromDB rejecting_db "sqlite" (Some bad_table)
        = (inr e, d)
        /\ db_executed d = ["CREATE TABLE IF NOT EXISTS bad"])
  /\ (exists s d,
        NewDatabaseStorageWithConfig (fun _ _ => inl accepting_db)
          "mysql://audit@tcp(localhost:3306)/audit" (Some bad_table)
        = (inl s, Some d)
        /\ tableName s = "bad; drop table x"
        /\ hd_error (db_executed d) = Some "CREATE TABLE IF NOT EXISTS bad").
Proof.
  assert (forall (answer : string -> option error) (dialect : string),
             dialect = "sqlite" \/ dialect = "postgres" \/ dialect = "mysql" ->
             hd_error
               (db_executed
                  (snd (NewDatabaseStorageFromDB
                          {| db_answer := answer; db_executed := [] |}
                          dialect (Some bad_table))))
             = Some "CREATE TABLE IF NOT EXISTS bad") as Hfirst.
  { intros answer dialect [-> | [-> | ->]]; vm_compute;
      repeat match goal with
             | |- context [answer ?s] => destruct (answer s)
             end; reflexivity. }
  split; [ intros; apply Hfirst; auto | ].
  split; [ intros; apply Hfirst; auto | ].
  split; [ intros; apply Hfirst; auto | ].
  split; [ eexists; eexists; vm_compute; repeat split | ].
  split; [ eexists; eexists; vm_compute; repeat split | ].
  eexists. eexists. vm_compute. repeat split.
Qed.

(* ----------------------------------------------------------------- *)
(** ** The file backend: construction *)

(** C4. [NewFileStorage] does not look for a symbolic link: on a path
    that is a link to a file it succeeds and holds the target open; and
    it asks for mode 0755 for the directories and 0644 for the file, so
    that under the umask 022 both are open to the group and to others
    (the bits 077 are not all clear). *)
Theorem NewFileStorage_follows_links_and_opens_wide :
  (exists s,
     NewFileStorage linked_os ["tmp"; "audit.log"] = (inl s, linked_os)
     /\ lookup ["tmp"; "audit.log"] (files linked_os)
        = Some (Symlink ["tmp"; "target.log"])
     /\ file s = ["tmp"; "target.log"])
  /\ (exists s os,
        NewFileStorage fresh_os audit_log = (inl s, os)
        /\ lookup audit_log (files os) = Some (File 420 EmptyString)
        /\ lookup (filepath_Dir audit_log) (files os) = Some (Dir 493)
        /\ Z.land 420 63 = 36 /\ Z.land 493 63 = 45).
Proof.
  split.
  - eexists. vm_compute. repeat split.
  - eexists. eexists. vm_compute. repeat split.
Qed.

(* ----------------------------------------------------------------- *)
(** ** The cache-store backend: keys *)

Lemma record_key_without_ids (prefix : string) (r : AuditRecord) :
  EventID r = EmptyString -> ChallengeID r = EmptyString ->
  UserID r = EmptyString ->
  record_key prefix r = prefix ++ itoa (Timestamp r).
Proof.
  intros H1 H2 H3. unfold record_key. rewrite H1, H2, H3. reflexivity.
Qed.

(** C3. Two records of the same second without event id, challenge id
    and user id get the same key, whatever the prefix; for the two
    records of the test the second write replaces the first, and a query
    after both writes returns one record, the second. *)
Theorem same_second_records_share_a_key :
  (forall prefix a b,
     EventID a = EmptyString -> ChallengeID a = EmptyString ->
     UserID a = EmptyString ->
     EventID b = EmptyString -> ChallengeID b = EmptyString ->
     UserID b = EmptyString ->
     Timestamp a = Timestamp b ->
     record_key prefix a = record_key prefix b)
  /\ record_key "audit:" same_second_1 = record_key "audit:" same_second_2
  /\ same_second_1 <> same_second_2
  /\ exists st,
       write_all context_Background [same_second_1; same_second_2]
         empty_redis = (None, st)
       /\ fst (RedisStorage_Query context_Background
                 (Some (WithLimit 10 DefaultQueryFilter)) st)
          = inl [same_second_2].
Proof.
  split.
  { intros prefix a b Ha1 Ha2 Ha3 Hb1 Hb2 Hb3 Hts.
    rewrite !record_key_without_ids by assumption. rewrite Hts. reflexivity. }
  split; [ reflexivity | split; [ discriminate | ] ].
  eexists. vm_compute. split; reflexivity.
Qed.

(* ----------------------------------------------------------------- *)
(** ** The file backend: queries *)

Lemma len_nonneg (s : string) : 0 <= len s.
Proof. unfold len. lia. Qed.

Lemma len_String (c : ascii) (s : string) : len (String c s) = 1 + len s.
Proof. unfold len. cbn [String.length]. lia. Qed.

Lemma len_app (a b : string) : len (a ++ b) = len a + len b.
Proof.
  induction a as [ | c a IH ]; cbn [append].
  - unfold len at 2. cbn. lia.
  - rewrite !len_String, IH. lia.
Qed.

Lemma dropCR_len (l : string) : len (dropCR l) <= len l.
Proof.
  induction l as [ | c l IH ]; [ cbn; lia | ].
  destruct l as [ | c' l' ].
  - cbn [dropCR]. destruct (Ascii.eqb c carriage_return);
      rewrite ?len_String; unfold len; cbn; lia.
  - change (dropCR (String c (String c' l')))
      with (String c (dropCR (String c' l'))).
    rewrite !len_String in *. lia.
Qed.

Lemma buffer_limit_ceiling : buffer_limit MaxRecordJSONSize = MaxRecordJSONSize.
Proof. reflexivity. Qed.

Lemma scanTokens_short (max : Z) (lines : list string) :
  Forall (fun l => len l < buffer_limit max) lines ->
  scanTokens max lines = (map dropCR lines, None).
Proof.
  induction 1 as [ | l ls Hl _ IH ]; [ reflexivity | ].
  cbn [scanTokens map].
  replace (buffer_limit max <=? len l) with false
    by (symmetry; apply Z.leb_gt; assumption).
  rewrite IH. reflexivity.
Qed.

Lemma scanTokens_long (max : Z) (lines : list string) :
  Exists (fun l => buffer_limit max <= len l) lines ->
  snd (scanTokens max lines) = Some ErrTooLong.
Proof.
  induction 1 as [ l ls Hl | l ls _ IH ]; cbn [scanTokens].
  - replace (buffer_limit max <=? len l) with true
      by (symmetry; apply Z.leb_le; assumption).
    reflexivity.
  - destruct (buffer_limit max <=? len l); [ reflexivity | ].
    destruct (scanTokens max ls) as [ts e]. exact IH.
Qed.

Lemma paginate_spec (f : QueryFilter) (records : list AuditRecord) :
  forall (offset : Z) (results : list AuditRecord),
    0 <= offset <= Offset f -> llen results < Limit f ->
    paginate f records offset results =
    (results
     ++ firstn (Z.to_nat (Limit f - llen results))
          (skipn (Z.to_nat (Offset f - offset))
             (filter (fun r => matchesFilter r f) records)))%list.
Proof.
  induction records as [ | r rest IH ]; intros offset results Ho Hl.
  - cbn [paginate filter]. rewrite skipn_nil, firstn_nil, app_nil_r.
    reflexivity.
  - cbn [paginate filter].
    destruct (matchesFilter r f) eqn:Hm; cbn [negb].
    + destruct (offset <? Offset f) eqn:Hlt.
      * apply Z.ltb_lt in Hlt. rewrite IH by lia.
        replace (Z.to_nat (Offset f - offset))
          with (Datatypes.S (Z.to_nat (Offset f - (offset + 1)))) by lia.
        reflexivity.
      * apply Z.ltb_ge in Hlt.
        replace (Offset f - offset) with 0 by lia.
        change (skipn (Z.to_nat 0) ?l) with l.
        replace (Z.to_nat (Limit f - llen results))
          with (Datatypes.S (Z.to_nat (Limit f - llen results - 1))) by lia.
        cbn [firstn].
        assert (llen (results ++ [r])%list = llen results + 1) as Hlen.
        { unfold llen. rewrite length_app. cbn. lia. }
        destruct (llen (results ++ [r])%list >=? Limit f) eqn:Hfull.
        -- rewrite Z.geb_leb in Hfull. apply Z.leb_le in Hfull.
           replace (Limit f - llen results - 1) with 0 by lia.
           cbn [Z.to_nat firstn]. reflexivity.
        -- rewrite Z.geb_leb in Hfull. apply Z.leb_gt in Hfull.
           rewrite IH by lia. rewrite Hlen.
           replace (Offset f - offset) with 0 by lia.
           change (skipn (Z.to_nat 0) ?l) with l.
           replace (Limit f - (llen results + 1))
             with (Limit f - llen results - 1) by lia.
           rewrite <- app_assoc. reflexivity.
    + apply IH; assumption.
Qed.

Lemma paginate_page (filter : option QueryFilter)
    (records : list AuditRecord) :
  paginate (effective filter) records 0 [] = page (effective filter) records.
Proof.
  unfold effective.
  destruct (Normalize_range
              (match filter with None => DefaultQueryFilter | Some f => f end))
    as [HL HO].
  rewrite paginate_spec by (unfold llen; cbn; lia).
  unfold page, llen. cbn [List.length app Z.of_nat].
  rewrite !Z.sub_0_r. reflexivity.
Qed.

Section FileQueries.
Context {codec : JSON}.

Lemma decodeLines_tokens (lines : list string) :
  Forall (fun l => len l < MaxRecordJSONSize) lines ->
  decodeLines (map dropCR lines) = records_of_lines lines.
Proof.
  induction 1 as [ | l ls Hl _ IH ]; [ reflexivity | ].
  cbn [map decodeLines records_of_lines flat_map].
  fold (records_of_lines ls). rewrite IH.
  destruct (len (dropCR l) =? 0); [ reflexivity | ].
  replace (len (dropCR l) >? MaxRecordJSONSize) with false.
  - destruct (json_Unmarshal (dropCR l)); reflexivity.
  - symmetry. rewrite Z.gtb_ltb. apply Z.ltb_ge.
    pose proof (dropCR_len l). lia.
Qed.

(** [Query] on a storage whose file reads [content]. *)
Lemma FileStorage_Query_reads (ctx : ctx_t) (filter : option QueryFilter)
    (s : FileStorage) (os : OS) (content : string) :
  os_ReadAll os (filePath s) = Bytes content ->
  FileStorage_Query ctx filter (s, os) =
  (match scanTokens MaxRecordJSONSize (splitLines EmptyString content) with
   | ((_ :: _)%list as tokens, err) =>
       if ctx_done ctx then inr context_Canceled
       else match err with
            | Some e => inr ("failed to read file: " ++ e)
            | None =>
                inl (paginate (effective filter) (rev (decodeLines tokens))
                       0 [])
            end
   | ([], err) =>
       match err with
       | Some e => inr ("failed to read file: " ++ e)
       | None => inl (paginate (effective filter) (rev (decodeLines [])) 0 [])
       end
   end, (s, os)).
Proof.
  intros Hread. unfold FileStorage_Query. fold (effective filter).
  assert (exists q, resolve 40 (files os) (filePath s) = Some q) as [q Hq].
  { unfold os_ReadAll, os_Stat in Hread.
    destruct (filePath s) as [ | c p ]; [ discriminate | ].
    destruct (resolve 40 (files os) (c :: p)) as [q | ];
      [ exists q; reflexivity | discriminate ]. }
  rewrite Hq, Hread.
  destruct (scanTokens MaxRecordJSONSize (splitLines EmptyString content))
    as [[ | t ts] [e | ]]; destruct (ctx_done ctx); reflexivity.
Qed.

End FileQueries.

Lemma append_empty_r (s : string) : s ++ EmptyString = s.
Proof. induction s as [ | c s IH ]; cbn; [ | rewrite IH ]; reflexivity. Qed.

Lemma append_assoc (a b c : string) : (a ++ b) ++ c = a ++ b ++ c.
Proof. induction a as [ | x a IH ]; cbn; [ | rewrite IH ]; reflexivity. Qed.

Lemma nl_append (s : string) : nl ++ s = String newline s.
Proof. reflexivity. Qed.

(** A line followed by a newline is the next line the scanner sees. *)
Lemma splitLines_line (l : string) :
  forall cur rest,
    one_line l = true ->
    splitLines cur (l ++ String newline rest)
    = (cur ++ l) :: splitLines EmptyString rest.
Proof.
  induction l as [ | c l IH ]; intros cur rest Hl.
  - cbn [append splitLines]. rewrite Ascii.eqb_refl, append_empty_r.
    reflexivity.
  - cbn [one_line] in Hl. apply andb_true_iff in Hl as [Hc Hl].
    apply negb_true_iff in Hc.
    cbn [append splitLines]. rewrite Hc, IH by assumption.
    rewrite append_assoc. reflexivity.
Qed.

Lemma repeat_byte_succ (c : ascii) (n : N) :
  repeat_byte c (N.succ n) = String c (repeat_byte c n).
Proof. unfold repeat_byte. apply N.iter_succ. Qed.

Lemma repeat_byte_len (c : ascii) (n : N) : len (repeat_byte c n) = Z.of_N n.
Proof.
  induction n as [ | n IH ] using N.peano_ind; [ reflexivity | ].
  rewrite repeat_byte_succ, len_String, IH. lia.
Qed.

Lemma repeat_byte_one_line (c : ascii) (n : N) :
  Ascii.eqb c newline = false -> one_line (repeat_byte c n) = true.
Proof.
  intros Hc. induction n as [ | n IH ] using N.peano_ind; [ reflexivity | ].
  rewrite repeat_byte_succ. cbn [one_line]. rewrite Hc, IH. reflexivity.
Qed.

Section FileQueryResults.
Context {codec : JSON}.

Lemma Query_lines_short (ctx : ctx_t) (filter : option QueryFilter)
    (s : FileStorage) (os : OS) (content : string) :
  os_ReadAll os (filePath s) = Bytes content ->
  ctx_done ctx = false ->
  Forall (fun l => len l < MaxRecordJSONSize) (splitLines EmptyString content) ->
  FileStorage_Query ctx filter (s, os) =
  (inl (page (effective filter)
          (rev (records_of_lines (splitLines EmptyString content)))),
   (s, os)).
Proof.
  intros Hread Hctx Hshort.
  rewrite (FileStorage_Query_reads ctx filter s os content Hread).
  rewrite scanTokens_short by (rewrite buffer_limit_ceiling; assumption).
  pose proof (decodeLines_tokens _ Hshort) as Hdec.
  destruct (map dropCR (splitLines EmptyString content));
    rewrite ?Hctx, Hdec, paginate_page; reflexivity.
Qed.

Lemma Query_line_long (ctx : ctx_t) (filter : option QueryFilter)
    (s : FileStorage) (os : OS) (content : string) :
  os_ReadAll os (filePath s) = Bytes content ->
  ctx_done ctx = false ->
  Exists (fun l => MaxRecordJSONSize <= len l) (splitLines EmptyString content) ->
  FileStorage_Query ctx filter (s, os) =
  (inr ("failed to read file: " ++ ErrTooLong), (s, os)).
Proof.
  intros Hread Hctx Hlong.
  rewrite (FileStorage_Query_reads ctx filter s os content Hread).
  pose proof (scanTokens_long MaxRecordJSONSize
                (splitLines EmptyString content)) as Herr.
  rewrite buffer_limit_ceiling in Herr. specialize (Herr Hlong).
  destruct (scanTokens MaxRecordJSONSize (splitLines EmptyString content))
    as [tokens err].
  cbn [snd] in Herr. subst err. rewrite Hctx.
  destruct tokens; reflexivity.
Qed.

(** C5, as the code has it. On a file whose lines are all shorter than
    the ceiling of 1 MiB, [Query] passes over the empty lines and the
    lines that do not decode and returns the page the filter asks for
    of the matches among the other lines, newest line first.  A line of
    the ceiling's length or more is not passed over: the scan stops with
    "token too long" and [Query] returns that read error. *)
Theorem Query_skips_lines_below_the_ceiling
    (ctx : ctx_t) (filter : option QueryFilter)
    (s : FileStorage) (os : OS) (content : string) :
  os_ReadAll os (filePath s) = Bytes content ->
  ctx_done ctx = false ->
  (Forall (fun l => len l < MaxRecordJSONSize)
     (splitLines EmptyString content) ->
   FileStorage_Query ctx filter (s, os) =
   (inl (page (effective filter)
           (rev (records_of_lines (splitLines EmptyString content)))),
    (s, os)))
  /\ (Exists (fun l => MaxRecordJSONSize <= len l)
        (splitLines EmptyString content) ->
      FileStorage_Query ctx filter (s, os) =
      (inr ("failed to read file: " ++ ErrTooLong), (s, os))).
Proof.
  intros Hread Hctx. split; intros Hlines.
  - apply Query_lines_short with (content := content); assumption.
  - apply Query_line_long with (content := content); assumption.
Qed.

End FileQueryResults.

Lemma malformed_lines_short :
  Forall (fun l => len l < MaxRecordJSONSize)
    (splitLines EmptyString malformed_content).
Proof.
  assert (forall l, Z.ltb (len l) MaxRecordJSONSize = true ->
                    len l < MaxRecordJSONSize) as Hlt
      by (intros l; apply Z.ltb_lt).
  assert (splitLines EmptyString malformed_content
          = [ FlatJSON.Marshal
                (NewRecord 1234567890 EventLoginSuccess ResultSuccess);
              "this is not json"; EmptyString;
              FlatJSON.Marshal (NewRecord 1234567891 EventLogout ResultSuccess) ])
    as -> by (vm_compute; reflexivity).
  repeat (constructor; [ apply Hlt; vm_compute; reflexivity | ]).
  constructor.
Qed.

Lemma Query_skips_witness :
  os_ReadAll malformed_os (filePath tmp_storage) = Bytes malformed_content
  /\ ctx_done context_Background = false
  /\ FileStorage_Query context_Background None (tmp_storage, malformed_os) =
     (inl (page (effective None)
             (rev (records_of_lines
                     (splitLines EmptyString malformed_content)))),
      (tmp_storage, malformed_os))
  /\ page (effective None)
       (rev (records_of_lines (splitLines EmptyString malformed_content)))
     = [ NewRecord 1234567891 EventLogout ResultSuccess;
         NewRecord 1234567890 EventLoginSuccess ResultSuccess ].
Proof.
  split; [ reflexivity | split; [ reflexivity | split ] ].
  - exact (proj1 (Query_skips_lines_below_the_ceiling
                    context_Background None tmp_storage malformed_os
                    malformed_content eq_refl eq_refl)
             malformed_lines_short).
  - vm_compute. reflexivity.
Defined.

Lemma oversized_lines :
  splitLines EmptyString oversized_content = [good_line; oversized_line].
Proof.
  unfold oversized_content.
  rewrite nl_append, splitLines_line by (vm_compute; reflexivity).
  change nl with (String newline EmptyString).
  rewrite splitLines_line.
  - reflexivity.
  - unfold oversized_line. cbn [append one_line].
    rewrite repeat_byte_one_line; reflexivity.
Qed.

Lemma oversized_line_len : len oversized_line = MaxRecordJSONSize + 1.
Proof.
  unfold oversized_line. rewrite len_app, repeat_byte_len. reflexivity.
Qed.

(** C5 as stated fails: a line of [MaxRecordJSONSize + 1] bytes after a
    record makes the whole query fail. *)
Lemma Query_fails_on_an_oversized_line :
  len oversized_line = MaxRecordJSONSize + 1
  /\ FileStorage_Query context_Background (Some DefaultQueryFilter)
       (tmp_storage, oversized_os)
     = (inr "failed to read file: bufio.Scanner: token too long",
        (tmp_storage, oversized_os)).
Proof.
  split; [ exact oversized_line_len | ].
  apply (Query_line_long context_Background (Some DefaultQueryFilter)
           tmp_storage oversized_os oversized_content);
    [ reflexivity | reflexivity | ].
  rewrite oversized_lines. apply Exists_cons_tl, Exists_cons_hd.
  rewrite oversized_line_len. lia.
Qed.

(* ----------------------------------------------------------------- *)
(** ** The file backend: writing, then reading *)

Lemma path_eqb_eq (p q : path) : path_eqb p q = true <-> p = q.
Proof.
  revert q. induction p as [ | a p IH ]; intros [ | b q ]; cbn [path_eqb];
    try (split; [ discriminate | discriminate ]); [ tauto | ].
  rewrite andb_true_iff, String.eqb_eq, IH.
  split; [ intros [-> ->]; reflexivity | intros H; injection H; auto ].
Qed.






Section FileRoundTrip.
Context {codec : JSON}.






End FileRoundTrip.








Section FileNewestFirst.
Context {codec : JSON}.


End FileNewestFirst.

(* ----------------------------------------------------------------- *)
(** ** The cache-store backend: keys of distinct timestamps *)












(* ----------------------------------------------------------------- *)
(** ** The cache-store backend: writing, then reading *)

Lemma rget_rput_same {V : Type} (k : string) (v : V) (m : list (string * V)) :
  rget k (rput k v m) = Some v.
Proof.
  induction m as [ | [k' v'] m IH ]; cbn [rput rget].
  - rewrite String.eqb_refl. reflexivity.
  - destruct (String.eqb k k') eqn:E; cbn [rget]; rewrite E;
      [ reflexivity | exact IH ].
Qed.

Lemma rget_rput_other {V : Type} (k k0 : string) (v : V)
    (m : list (string * V)) :
  k0 <> k -> rget k0 (rput k v m) = rget k0 m.
Proof.
  intros Hne. induction m as [ | [k' v'] m IH ]; cbn [rput rget].
  - replace (String.eqb k0 k) with false
      by (symmetry; apply String.eqb_neq; assumption).
    reflexivity.
  - destruct (String.eqb k k') eqn:E; cbn [rget].
    + apply String.eqb_eq in E. subst k'.
      replace (String.eqb k0 k) with false
        by (symmetry; apply String.eqb_neq; assumption).
      reflexivity.
    + rewrite IH. reflexivity.
Qed.



Lemma insert_by_perm {A : Type} (before : A -> A -> bool) (x : A) (l : list A) :
  Permutation (insert_by before x l) (x :: l).
Proof.
  induction l as [ | y l IH ]; cbn [insert_by]; [ reflexivity | ].
  destruct (before x y); [ reflexivity | ].
  rewrite IH. apply perm_swap.
Qed.

Lemma sort_by_perm {A : Type} (before : A -> A -> bool) (l : list A) :
  Permutation (sort_by before l) l.
Proof.
  induction l as [ | x l IH ]; cbn [sort_by fold_right]; [ reflexivity | ].
  fold (sort_by before l). rewrite insert_by_perm, IH. reflexivity.
Qed.

(** Sorting by [newer] orders the timestamps from the greatest down. *)
Lemma insert_newer_sorted (x : AuditRecord) (l : list AuditRecord) :
  StronglySorted Z.ge (map Timestamp l) ->
  StronglySorted Z.ge (map Timestamp (insert_by newer x l)).
Proof.
  induction l as [ | y l IH ]; intros Hl; cbn [insert_by map].
  - constructor; constructor.
  - inversion Hl as [ | ? ? Hl' Hy ]; subst.
    unfold newer at 1. destruct (Timestamp x >? Timestamp y) eqn:E.
    + rewrite Z.gtb_ltb in E. apply Z.ltb_lt in E.
      cbn [map]. constructor; [ assumption | ].
      constructor; [ lia | ].
      eapply Forall_impl; [ | exact Hy ]. intros z Hz. lia.
    + rewrite Z.gtb_ltb in E. apply Z.ltb_ge in E.
      cbn [map]. constructor; [ apply IH; assumption | ].
      assert (Permutation (map Timestamp (insert_by newer x l))
                (Timestamp x :: map Timestamp l)) as Hp
          by (change (Timestamp x :: map Timestamp l)
                with (map Timestamp (x :: l));
              apply Permutation_map, insert_by_perm).
      eapply Permutation_Forall; [ symmetry; exact Hp | ].
      constructor; [ lia | assumption ].
Qed.

Lemma sort_newer_sorted (l : list AuditRecord) :
  StronglySorted Z.ge (map Timestamp (sort_by newer l)).
Proof.
  induction l as [ | x l IH ]; cbn [sort_by fold_right map]; [ constructor | ].
  apply insert_newer_sorted. exact IH.
Qed.




Section RedisRoundTrip.
Context {codec : JSON}.






End RedisRoundTrip.

(* ----------------------------------------------------------------- *)
(** ** Newest first *)








(* ================================================================= *)
(** * Further properties *)

(* ----------------------------------------------------------------- *)
(** ** The writer: what it keeps, what it delivers *)

Section WriterInvariant.
Context {S : Type} {ops : Storage S}.

Lemma NewWriter_invariant (storage : option S) (config : option WriterConfig) :
  writer_invariant (NewWriter storage config).
Proof.
  unfold writer_invariant, NewWriter. cbn.
  destruct (QueueSize _ <=? 0) eqn:E1, (Workers _ <=? 0) eqn:E2,
    (StopTimeout _ <=? 0) eqn:E3;
    try apply Z.leb_gt in E1; try apply Z.leb_gt in E2;
    try apply Z.leb_gt in E3;
    unfold llen, ten_seconds; cbn; repeat split; try lia; discriminate.
Qed.

Lemma Enqueue_invariant (record : AuditRecord) (w w' : Writer S) (b : bool) :
  writer_invariant w -> Enqueue record w = Returns (b, w') ->
  writer_invariant w'.
Proof.
  intros (H1 & H2 & H3 & H4 & H5 & H6 & H7). unfold Enqueue.
  destruct (queue_closed w) eqn:Hc; [ discriminate | ].
  destruct (llen (queue w) <? queue_cap w) eqn:E.
  - apply Z.ltb_lt in E. intros H; injection H as _ <-.
    unfold writer_invariant; cbn. rewrite Hc.
    repeat split; try assumption.
    unfold llen in *. rewrite length_app. cbn. lia.
  - destruct (onEnqueueFailed w); intros H; injection H as _ <-;
      unfold writer_invariant; cbn; rewrite Hc; repeat split; assumption.
Qed.

Lemma writeRecord_invariant (record : AuditRecord) (w w' : Writer S) :
  0 < queue_cap w /\ 0 < workers w /\ 0 < stopTimeout w
  /\ llen (queue w) <= queue_cap w ->
  writeRecord record w = Returns w' ->
  0 < queue_cap w' /\ 0 < workers w' /\ 0 < stopTimeout w'
  /\ llen (queue w') <= queue_cap w'.
Proof.
  intros Hinv. unfold writeRecord.
  destruct (storage w) as [st | ]; [ | discriminate ].
  destruct (Write _ record st) as [[e | ] st'];
    [ destruct (onWriteFailed w) | ]; intros H; injection H as <-;
    cbn; exact Hinv.
Qed.

Lemma worker_step_invariant (w w' : Writer S) :
  writer_invariant w -> worker_step w = Returns w' -> writer_invariant w'.
Proof.
  intros Hinv Hstep.
  pose proof Hinv as (H1 & H2 & H3 & H4 & H5 & H6 & H7).
  assert (same_control w w') as (c1 & c2 & c3 & c4 & _)
      by (apply (run_workers_control 1); cbn [run_workers]; rewrite Hstep;
          reflexivity).
  unfold worker_step in Hstep.
  destruct (queue w) as [ | r rest ] eqn:Hq.
  - injection Hstep as <-. assumption.
  - apply writeRecord_invariant in Hstep.
    + destruct Hstep as (a1 & a2 & a3 & a4).
      unfold writer_invariant. rewrite c1, c2, c3, c4. tauto.
    + cbn. unfold llen in *. cbn [List.length] in H4.
      repeat split; try assumption. lia.
Qed.

Lemma run_workers_invariant (n : nat) :
  forall w w' : Writer S,
    writer_invariant w -> run_workers n w = Returns w' -> writer_invariant w'.
Proof.
  induction n as [ | n IH ]; intros w w' Hinv; cbn [run_workers].
  - intros H; injection H as <-. assumption.
  - destruct (worker_step w) as [w1 | m] eqn:Hs; [ | discriminate ].
    apply IH. eapply worker_step_invariant; eassumption.
Qed.

Lemma Start_invariant (w : Writer S) :
  writer_invariant w -> writer_invariant (Start w).
Proof.
  intros Hinv. unfold Start. destruct (started w) eqn:E; [ assumption | ].
  destruct Hinv as (H1 & H2 & H3 & H4 & H5 & H6 & H7).
  unfold writer_invariant; cbn. repeat split; assumption.
Qed.

Lemma Stop_invariant (served : nat) (w w' : Writer S) (err : option error) :
  writer_invariant w -> Stop served w = Returns (err, w') ->
  writer_invariant w'.
Proof.
  intros Hinv. unfold Stop.
  destruct (negb (started w) || stopped w) eqn:E.
  - intros H; injection H as _ <-. assumption.
  - apply orb_false_iff in E as [E1 E2]. apply negb_false_iff in E1.
    assert (writer_invariant (begin_stop w)) as Hb.
    { destruct Hinv as (H1 & H2 & H3 & H4 & H5 & H6 & H7).
      unfold writer_invariant, begin_stop; cbn. repeat split; auto. }
    destruct (run_workers served (begin_stop w)) as [w2 | m] eqn:Hr;
      [ | discriminate ].
    apply run_workers_invariant in Hr; [ | assumption ].
    destruct Hr as (H1 & H2 & H3 & H4 & H5 & H6 & H7).
    destruct (queue w2) eqn:Hq; cbn [storage emit];
      (destruct (storage w2) as [st | ];
       [ destruct (Close st) as [e st']; intros H; injection H as _ <-
       | intros H; injection H as _ <- ]);
      unfold writer_invariant; cbn; rewrite ?Hq; repeat split; assumption.
Qed.

Lemma apply_op_invariant (o : WriterOp) (w w' : Writer S) :
  writer_invariant w -> apply_op o w = Returns w' -> writer_invariant w'.
Proof.
  intros Hinv. destruct o as [ | r | | served | | ]; cbn [apply_op].
  - intros H; injection H as <-. apply Start_invariant. assumption.
  - destruct (Enqueue r w) as [[b w1] | m] eqn:E; [ | discriminate ].
    intros H; injection H as <-. eapply Enqueue_invariant; eassumption.
  - apply worker_step_invariant. assumption.
  - destruct (Stop served w) as [[e w1] | m] eqn:E; [ | discriminate ].
    intros H; injection H as <-. eapply Stop_invariant; eassumption.
  - intros H; injection H as <-.
    destruct Hinv as (H1 & H2 & H3 & H4 & H5 & H6 & H7).
    unfold writer_invariant; cbn. repeat split; assumption.
  - intros H; injection H as <-.
    destruct Hinv as (H1 & H2 & H3 & H4 & H5 & H6 & H7).
    unfold writer_invariant; cbn. repeat split; assumption.
Qed.

(** X1. Whatever is done to a writer made by [NewWriter], in whatever
    order - starting it, enqueueing, turns of the workers, stopping it,
    setting callbacks - as long as no call panics: the capacity, the
    number of workers and the timeout are positive, the queue never holds
    more records than its capacity, the queue is closed and the context
    cancelled exactly when the writer is stopped, and a stopped writer
    was started. *)
Theorem writer_invariant_always (storage : option S)
    (config : option WriterConfig) (calls : list WriterOp) (w : Writer S) :
  apply_ops calls (NewWriter storage config) = Returns w ->
  writer_invariant w.
Proof.
  pose proof (NewWriter_invariant storage config) as Hinv.
  revert Hinv. generalize (NewWriter storage config).
  induction calls as [ | o rest IH ]; intros w0 Hinv; cbn [apply_ops].
  - intros H; injection H as <-. assumption.
  - destruct (apply_op o w0) as [w1 | m] eqn:E; [ | discriminate ].
    apply IH. eapply apply_op_invariant; eassumption.
Qed.

End WriterInvariant.

Lemma writer_invariant_witness :
  apply_ops [DoStart; DoOnWriteFailed; DoEnqueue login_record;
             DoEnqueue refused_record; DoEnqueue same_second_2]
    (NewWriter (Some empty_ledger) (Some small_config)) = Returns busy_writer
  /\ writer_invariant busy_writer.
Proof.
  split; [ reflexivity | ].
  apply (writer_invariant_always (Some empty_ledger) (Some small_config)
           [DoStart; DoOnWriteFailed; DoEnqueue login_record;
            DoEnqueue refused_record; DoEnqueue same_second_2]).
  reflexivity.
Defined.

Section WriterDrain.
Context {S : Type} {ops : Storage S}.

Lemma same_setup_refl (w : Writer S) : same_setup w w.
Proof. unfold same_setup. tauto. Qed.

Lemma same_setup_trans (a b c : Writer S) :
  same_setup a b -> same_setup b c -> same_setup a c.
Proof.
  unfold same_setup. intros (a1 & a2 & a3 & a4 & a5) (b1 & b2 & b3 & b4 & b5).
  rewrite b1, b2, b3, b4, b5. tauto.
Qed.






Lemma Stop_setup (served : nat) (w w' : Writer S) (err : option error) :
  started w = true -> stopped w = false ->
  Stop served w = Returns (err, w') ->
  same_setup w w' /\ started w' = true /\ stopped w' = true.
Proof.
  intros Hstarted Hstopped. unfold Stop.
  rewrite Hstarted, Hstopped. cbn [negb orb].
  destruct (run_workers served (begin_stop w)) as [w2 | m] eqn:Hr;
    [ | discriminate ].
  assert (same_setup (begin_stop w) w2 /\ same_control (begin_stop w) w2)
    as [Hs Hc].
  { split; [ | apply run_workers_control with (n := served); assumption ].
    clear Hstarted Hstopped. revert Hr. generalize (begin_stop w).
    induction served as [ | n IH ]; intros w0; cbn [run_workers].
    - intros H; injection H as <-. apply same_setup_refl.
    - unfold worker_step. destruct (queue w0) as [ | r rest ] eqn:Hq;
        [ apply IH | ].
      destruct (writeRecord r (set_queue rest w0)) as [w1 | m] eqn:Hw;
        [ | discriminate ].
      intros Hr. apply IH in Hr.
      eapply same_setup_trans; [ | exact Hr ].
      unfold writeRecord in Hw. cbn [storage set_queue] in Hw.
      destruct (storage w0) as [st | ]; [ | discriminate ].
      destruct (Write _ r st) as [[e | ] st'];
        [ cbn [onWriteFailed set_queue] in Hw; destruct (onWriteFailed w0) | ];
        injection Hw as <-; unfold same_setup; cbn; tauto. }
  destruct Hs as (s1 & s2 & s3 & s4 & s5).
  destruct Hc as (c1 & c2 & _).
  cbn in s1, s2, s3, s4, s5, c1, c2.
  destruct (queue w2); cbn [storage emit];
    (destruct (storage w2) as [st | ];
     [ destruct (Close st) as [e st']; intros H; injection H as _ <-
     | intros H; injection H as _ <- ]);
    unfold same_setup; cbn; rewrite s1, s2, s3, s4, s5, c1, c2;
    repeat split; assumption.
Qed.

(** X3. Once [Stop] has gone through on a started writer, [GetStats]
    reports a queue length of 0, whether or not the workers emptied the
    queue in time, together with the capacity and the number of workers
    the writer was made with and both flags set. *)
Theorem GetStats_after_Stop (served : nat) (w w' : Writer S)
    (err : option error) :
  started w = true -> stopped w = false ->
  Stop served w = Returns (err, w') ->
  GetStats w'
  = {| QueueLength := 0; QueueCap := queue_cap w; StatsWorkers := workers w;
       Started := true; Stopped := true |}.
Proof.
  intros Hstarted Hstopped Hstop.
  destruct (Stop_setup served w w' err Hstarted Hstopped Hstop)
    as ((s1 & s2 & _) & Hs & Ht).
  unfold GetStats. rewrite Ht, Hs, s1, s2. reflexivity.
Qed.

End WriterDrain.


Lemma GetStats_after_Stop_witness :
  exists w',
    Stop 1 busy_writer = Returns (None, w')
    /\ queue w' = [refused_record; same_second_2]
    /\ GetStats w'
       = {| QueueLength := 0; QueueCap := 10; StatsWorkers := 1;
            Started := true; Stopped := true |}.
Proof.
  eexists. split; [ reflexivity | ]. split; [ reflexivity | ].
  exact (GetStats_after_Stop 1 busy_writer _ None eq_refl eq_refl eq_refl).
Defined.

Section WriterDelivery.
Context {S : Type} {ops : Storage S}.


End WriterDelivery.


(* ----------------------------------------------------------------- *)
(** ** The fan-out: closing *)

Lemma multi_close_spec (ss : list (option AnyStorage))
    (firstErr : option error) :
  multi_close ss firstErr =
  (match firstErr with
   | Some e => Some e
   | None => first_error (map entry_close_answer ss)
   end,
   map entry_closed ss).
Proof.
  revert firstErr. induction ss as [ | [s | ] rest IH ]; intros firstErr.
  - destruct firstErr; reflexivity.
  - cbn [multi_close map entry_close_answer entry_closed first_error].
    destruct (any_Close s) as [err s'] eqn:E.
    rewrite IH. cbn [fst snd].
    destruct firstErr as [e0 | ], err as [e | ]; reflexivity.
  - cbn [multi_close map entry_close_answer entry_closed first_error].
    rewrite IH. reflexivity.
Qed.

(** X5. [Close] on a fan-out closes every backend that is not nil, once,
    whatever the earlier ones answered, and returns the first error among
    the answers (nil when there is none). *)
Theorem MultiStorage_Close_closes_all (ss : list (option AnyStorage)) :
  MultiStorage_Close (NewMultiStorage ss) =
  (first_error (map entry_close_answer ss),
   NewMultiStorage (map entry_closed ss)).
Proof.
  unfold MultiStorage_Close, NewMultiStorage. cbn [storages].
  rewrite multi_close_spec. reflexivity.
Qed.

(** A closed file before a ledger: the error of the file is returned and
    the ledger is closed all the same. *)
Lemma MultiStorage_Close_example :
  exists file' ledger',
    MultiStorage_Close
      (NewMultiStorage [Some closed_file_entry; None; Some ledger_entry])
    = (Some "close: file already closed",
       NewMultiStorage [Some file'; None; Some ledger'])
    /\ ledger'
       = with_state ledger_entry {| kept := []; closed_times := 1 |}.
Proof.
  eexists. eexists. split; reflexivity.
Qed.

(* ----------------------------------------------------------------- *)
(** ** The facade: logging *)

Lemma SetTimestamp_same (r : AuditRecord) : SetTimestamp (Timestamp r) r = r.
Proof. destruct r. reflexivity. Qed.

Section FacadeFacts.
Context {S : Type} {ops : Storage S} {secure : Secure}.

(** The record [Log] works with once the timestamp and the destination
    are dealt with. *)
Lemma Log_prepares (now : Z) (ctx : ctx_t) (record : AuditRecord)
    (l : Logger S) :
  Enabled (config l) = true ->
  Log now ctx record l =
  let record' := prepared (config l) now record in
  match sink l with
  | Async w =>
      match Enqueue record' w with
      | Panics m => Panics m
      | Returns (_, w') =>
          Returns (record', call_back record' (set_sink (Async w') l))
      end
  | Direct (Some st) =>
      let (err, st') := Write ctx record' st in
      let l' := set_sink (Direct (Some st')) l in
      let l' :=
        match err with
        | Some e =>
            say (Printed ("[audit] Failed to write audit record: " ++ e)) l'
        | None => l'
        end in
      Returns (record', call_back record' l')
  | Direct None => Returns (record', call_back record' l)
  end.
Proof.
  intros Hon. unfold Log, prepared. rewrite Hon. cbn [negb].
  destruct (Timestamp record =? 0) eqn:E;
    [ | rewrite SetTimestamp_same ]; reflexivity.
Qed.

(** X6. [Log] on an enabled logger without a writer: the backend is given
    the prepared record exactly once, with the caller's context; when the
    write fails the error is logged and not returned; the callback, when
    set, is called with the prepared record whether the write failed or
    not; and the call always returns. *)
Theorem Log_writes_the_prepared_record (now : Z) (ctx : ctx_t)
    (record : AuditRecord) (l : Logger S) (st : S) :
  Enabled (config l) = true -> sink l = Direct (Some st) ->
  exists l',
    Log now ctx record l = Returns (prepared (config l) now record, l')
    /\ sink l'
       = Direct (Some (snd (Write ctx (prepared (config l) now record) st)))
    /\ output l'
       = (output l
          ++ match fst (Write ctx (prepared (config l) now record) st) with
             | Some e =>
                 [Printed ("[audit] Failed to write audit record: " ++ e)]
             | None => []
             end
          ++ (if logCallback l
              then [LogCallbackCalled (prepared (config l) now record)]
              else []))%list
    /\ config l' = config l /\ logCallback l' = logCallback l.
Proof.
  intros Hon Hsink. rewrite Log_prepares by assumption. cbv zeta.
  rewrite Hsink.
  destruct (Write ctx (prepared (config l) now record) st) as [[e | ] st'];
    cbn [fst snd]; unfold call_back; cbn [logCallback say set_sink];
    destruct (logCallback l) eqn:Hcb; eexists;
    (split; [ reflexivity | ]); cbn; rewrite ?app_nil_r, <- ?app_assoc;
    repeat split; auto.
Qed.



End FacadeFacts.


Lemma Log_writes_witness :
  exists l',
    Log (secure := stars) 1700000000 context_Background unstamped
      (SetLogCallback (NewLogger (Some empty_ledger) None))
    = Returns (prepared (secure := stars) DefaultConfig 1700000000 unstamped, l')
    /\ sink l'
       = Direct
           (Some {| kept :=
                      [WithDestination "****"
                         (SetTimestamp 1700000000 unstamped)];
                    closed_times := 0 |})
    /\ output l'
       = [LogCallbackCalled
            (WithDestination "****" (SetTimestamp 1700000000 unstamped))].
Proof.
  destruct (Log_writes_the_prepared_record (secure := stars) 1700000000
              context_Background unstamped
              (SetLogCallback (NewLogger (Some empty_ledger) None))
              empty_ledger eq_refl eq_refl)
    as (l' & Hlog & Hsink & Hout & _).
  exists l'. split; [ exact Hlog | ]. split; [ exact Hsink | exact Hout ].
Defined.


(* ----------------------------------------------------------------- *)
(** ** The file backend: what a write does *)

Section FileWrites.
Context {codec : JSON}.


End FileWrites.


(* ----------------------------------------------------------------- *)
(** ** The file backend: pages *)

Lemma Forall_firstn_of {A : Type} (P : A -> Prop) (n : nat) (l : list A) :
  Forall P l -> Forall P (firstn n l).
Proof.
  revert n. induction l as [ | x l IH ]; intros [ | n ] H; cbn [firstn];
    try constructor; inversion H; subst; auto.
Qed.

Lemma Forall_skipn_of {A : Type} (P : A -> Prop) (n : nat) (l : list A) :
  Forall P l -> Forall P (skipn n l).
Proof.
  revert n. induction l as [ | x l IH ]; intros [ | n ] H; cbn [skipn];
    try assumption; inversion H; subst; auto.
Qed.

Lemma Forall_filter_of {A : Type} (f : A -> bool) (l : list A) :
  Forall (fun x => f x = true) (filter f l).
Proof.
  induction l as [ | x l IH ]; cbn [filter]; [ constructor | ].
  destruct (f x) eqn:E; [ constructor; assumption | assumption ].
Qed.

(** A page holds matches only, and no more than the limit. *)
Lemma page_sound (f : QueryFilter) (records : list AuditRecord) :
  0 <= Limit f ->
  Forall (fun r => matchesFilter r f = true) (page f records)
  /\ llen (page f records) <= Limit f.
Proof.
  intros HL. unfold page. split.
  - apply Forall_firstn_of, Forall_skipn_of, Forall_filter_of.
  - unfold llen. rewrite length_firstn. lia.
Qed.

Lemma firstn_more {A : Type} (a b : nat) (l : list A) :
  (firstn a l ++ firstn b (skipn a l))%list = firstn (a + b) l.
Proof.
  revert l. induction a as [ | a IH ]; intros l; [ reflexivity | ].
  destruct l as [ | x l ]; cbn [firstn skipn app Nat.add].
  - rewrite firstn_nil. reflexivity.
  - rewrite IH. reflexivity.
Qed.

Lemma skipn_more {A : Type} (a b : nat) (l : list A) :
  skipn b (skipn a l) = skipn (a + b) l.
Proof.
  revert l. induction a as [ | a IH ]; intros l; [ reflexivity | ].
  destruct l as [ | x l ]; cbn [skipn Nat.add];
    [ apply skipn_nil | apply IH ].
Qed.

(** The predicates of a filter are those of the filter the caller gave,
    whatever its page. *)
Lemma matchesFilter_Normalize (f : QueryFilter) (r : AuditRecord) :
  matchesFilter r (Normalize f) = matchesFilter r f.
Proof.
  unfold Normalize. cbv zeta.
  repeat match goal with
         | |- context [if ?c then _ else _] => destruct c
         end; reflexivity.
Qed.

Lemma matchesFilter_paged (limit offset : Z) (f : QueryFilter)
    (r : AuditRecord) :
  matchesFilter r (effective (paged limit offset f)) = matchesFilter r f.
Proof.
  unfold effective, paged. rewrite matchesFilter_Normalize. reflexivity.
Qed.

Lemma paged_page (limit offset : Z) (f : QueryFilter)
    (records : list AuditRecord) :
  1 <= limit <= 1000 -> 0 <= offset ->
  page (effective (paged limit offset f)) records
  = firstn (Z.to_nat limit)
      (skipn (Z.to_nat offset)
         (filter (fun r => matchesFilter r f) records)).
Proof.
  intros Hl Ho. unfold page.
  rewrite (filter_ext _ (fun r => matchesFilter r f))
    by (intros r; apply matchesFilter_paged).
  unfold effective. rewrite Normalize_Limit, Normalize_Offset.
  cbn [paged WithOffset WithLimit Limit Offset set_Limit set_Offset].
  replace (limit <=? 0) with false by (symmetry; apply Z.leb_gt; lia).
  replace (limit >? 1000) with false
    by (symmetry; rewrite Z.gtb_ltb; apply Z.ltb_ge; lia).
  replace (offset <? 0) with false by (symmetry; apply Z.ltb_ge; lia).
  reflexivity.
Qed.

Section FilePages.
Context {codec : JSON}.

(** X9. Pages of the file backend fit together: on a file whose lines are
    all below the ceiling, the page of [a] records at offset [o] followed
    by the page of [b] records at offset [o + a] is the page of [a + b]
    records at offset [o], for the same predicates, as long as [a + b]
    stays within the limit of 1000. *)
Theorem FileStorage_pages_compose (f : QueryFilter) (o a b : Z)
    (s : FileStorage) (os : OS) (content : string) :
  os_ReadAll os (filePath s) = Bytes content ->
  Forall (fun l => len l < MaxRecordJSONSize)
    (splitLines EmptyString content) ->
  0 <= o -> 1 <= a -> 1 <= b -> a + b <= 1000 ->
  exists first second both,
    fst (FileStorage_Query context_Background (paged a o f) (s, os))
    = inl first
    /\ fst (FileStorage_Query context_Background (paged b (o + a) f) (s, os))
       = inl second
    /\ fst (FileStorage_Query context_Background (paged (a + b) o f) (s, os))
       = inl both
    /\ (first ++ second)%list = both.
Proof.
  intros Hread Hshort Ho Ha Hb Hab.
  rewrite !(Query_lines_short context_Background _ s os content Hread eq_refl Hshort).
  cbn [fst]. do 3 eexists.
  split; [ reflexivity | ]. split; [ reflexivity | ].
  split; [ reflexivity | ].
  rewrite !paged_page by lia.
  rewrite !Z2Nat.inj_add by lia.
  rewrite <- skipn_more. apply firstn_more.
Qed.

(** X10. Whatever the file holds, when [Query] on the file backend
    returns records, every one of them matches the filter, there are no
    more of them than the normalized limit, which is at most 1000, and
    the storage and the file are as they were. *)
Theorem FileStorage_Query_sound (ctx : ctx_t) (filter : option QueryFilter)
    (st st' : FileStorage * OS) (results : list AuditRecord) :
  FileStorage_Query ctx filter st = (inl results, st') ->
  st' = st
  /\ Forall (fun r => matchesFilter r (effective filter) = true) results
  /\ llen results <= Limit (effective filter) <= 1000.
Proof.
  destruct st as [s os].
  pose proof (Normalize_range
                (match filter with None => DefaultQueryFilter | Some f => f end))
    as [HL _].
  fold (effective filter) in HL.
  unfold FileStorage_Query. fold (effective filter).
  destruct (resolve 40 (files os) (filePath s)); [ | discriminate ].
  destruct (os_ReadAll os (filePath s)) as [ | e | content ];
    [ | discriminate | ].
  - intros H; injection H as <- <-. split; [ reflexivity | ].
    split; [ constructor | unfold llen; cbn; lia ].
  - destruct (scanTokens MaxRecordJSONSize (splitLines EmptyString content))
      as [tokens err].
    assert (forall res : FileStorage * OS,
               (match err with
                | Some e => (inr ("failed to read file: " ++ e), (s, os))
                | None =>
                    (inl (paginate (effective filter)
                            (rev (decodeLines tokens)) 0 []), (s, os))
                end) = (inl results, res) ->
               res = (s, os)
               /\ Forall (fun r => matchesFilter r (effective filter) = true)
                    results
               /\ llen results <= Limit (effective filter) <= 1000) as Hmain.
    { intros res. destruct err; [ discriminate | ].
      intros H; injection H as <- <-. rewrite paginate_page.
      split; [ reflexivity | ].
      destruct (page_sound (effective filter) (rev (decodeLines tokens)))
        as [Hm Hn]; [ lia | ].
      split; [ assumption | lia ]. }
    destruct tokens as [ | t ts ]; [ apply Hmain | ].
    destruct (ctx_done ctx); [ discriminate | apply Hmain ].
Qed.

End FilePages.

Lemma FileStorage_pages_witness :
  exists first second both,
    fst (FileStorage_Query context_Background (paged 1 0 DefaultQueryFilter)
           malformed_backend) = inl first
    /\ fst (FileStorage_Query context_Background
              (paged 1 (0 + 1) DefaultQueryFilter) malformed_backend)
       = inl second
    /\ fst (FileStorage_Query context_Background
              (paged (1 + 1) 0 DefaultQueryFilter) malformed_backend)
       = inl both
    /\ (first ++ second)%list = both.
Proof.
  apply (FileStorage_pages_compose DefaultQueryFilter 0 1 1 tmp_storage
           malformed_os malformed_content eq_refl malformed_lines_short);
    lia.
Defined.

Lemma FileStorage_Query_sound_witness :
  FileStorage_Query context_Background
    (Some (WithLimit 1 DefaultQueryFilter)) malformed_backend
  = (inl [NewRecord 1234567891 EventLogout ResultSuccess], malformed_backend)
  /\ Forall (fun r => matchesFilter r
                        (effective (Some (WithLimit 1 DefaultQueryFilter)))
                      = true)
       [NewRecord 1234567891 EventLogout ResultSuccess]
  /\ llen [NewRecord 1234567891 EventLogout ResultSuccess]
     <= Limit (effective (Some (WithLimit 1 DefaultQueryFilter))) <= 1000.
Proof.
  assert (FileStorage_Query context_Background
            (Some (WithLimit 1 DefaultQueryFilter)) malformed_backend
          = (inl [NewRecord 1234567891 EventLogout ResultSuccess],
             malformed_backend)) as Hq by (vm_compute; reflexivity).
  split; [ exact Hq | ].
  exact (proj2 (FileStorage_Query_sound _ _ _ _ _ Hq)).
Defined.

(* ----------------------------------------------------------------- *)
(** ** The file backend: rotation *)




Lemma rotated_path_other (p : path) (stamp : string) :
  rotated_path p stamp <> p.
Proof.
  unfold rotated_path. intros H.
  destruct p as [ | a p ]; [ discriminate | ].
  assert (a :: p <> []) as Hne by discriminate.
  rewrite (app_removelast_last EmptyString Hne) in H at 3.
  apply app_inv_head in H. injection H as H.
  apply (f_equal len) in H.
  rewrite !len_app, !len_String in H. pose proof (len_nonneg stamp). lia.
Qed.




Section RotateFails.
Context {codec : JSON}.

(** X12. [Rotate] that cannot rename the log, a directory having the
    rotated name: it returns an error, the file system is as before, and
    the storage is left with its file closed, so that every write after
    it, with a live context, fails and writes nothing. *)
Theorem Rotate_failure_leaves_the_storage_closed (stamp : string)
    (s : FileStorage) (os : OS) (content : string) (dir_mode blocking : Z) :
  open_on s os content ->
  file s = filePath s ->
  lookup (filepath_Dir (filePath s)) (files os) = Some (Dir dir_mode) ->
  lookup (rotated_path (filePath s) stamp) (files os) = Some (Dir blocking) ->
  exists e s',
    Rotate stamp (s, os) = (Some e, (s', os))
    /\ file_closed s' = true
    /\ forall record,
         exists e' s'',
           FileStorage_Write context_Background record (s', os)
           = (Some e', (s'', os)).
Proof.
  intros (Hopen & Herr & Hp & Hres & mode & Hfile) Hsame Hdir Hblock.
  rewrite Hsame in Hfile.
  assert (os_Rename os (filePath s) (rotated_path (filePath s) stamp)
          = (Some "rename: is a directory", os)) as Hren.
  { unfold os_Rename. rewrite Hfile.
    destruct (path_eqb (filePath s) (rotated_path (filePath s) stamp)) eqn:E.
    - apply path_eqb_eq in E. symmetry in E.
      destruct (rotated_path_other _ _ E).
    - replace (filepath_Dir (rotated_path (filePath s) stamp))
        with (filepath_Dir (filePath s))
        by (unfold rotated_path, filepath_Dir; symmetry;
            apply removelast_last).
      unfold os_Stat.
      destruct (filepath_Dir (filePath s)) as [ | a p ] eqn:Ed.
      + rewrite Hblock. reflexivity.
      + cbn [resolve]. rewrite Hdir, Hdir, Hblock. reflexivity. }
  unfold Rotate. rewrite Herr, Hopen, Hren.
  eexists. eexists. split; [ reflexivity | ].
  split; [ reflexivity | ].
  intros record. unfold FileStorage_Write.
  cbn [ctx_done context_Background writer_err file_closed].
  destruct (defaultBufSize <? len (json_Marshal record));
    [ | destruct (len (json_Marshal record) =? defaultBufSize) ];
    eexists; eexists; reflexivity.
Qed.

End RotateFails.

Lemma Rotate_failure_witness :
  exists e s',
    Rotate "20240101-120000" (tmp_storage, blocked_os)
    = (Some e, (s', blocked_os))
    /\ file_closed s' = true
    /\ forall record,
         exists e' s'',
           FileStorage_Write context_Background record (s', blocked_os)
           = (Some e', (s'', blocked_os)).
Proof.
  apply (Rotate_failure_leaves_the_storage_closed "20240101-120000"
           tmp_storage blocked_os ("first" ++ nl) 493 493).
  - unfold open_on. repeat split; try discriminate.
    exists 420. reflexivity.
  - reflexivity.
  - reflexivity.
  - reflexivity.
Defined.

(* ----------------------------------------------------------------- *)
(** ** The Redis backend: what a query returns and what it leaves *)

Lemma rget_rdel_other {V : Type} (k k0 : string) (m : list (string * V)) :
  k0 <> k -> rget k0 (rdel k m) = rget k0 m.
Proof.
  intros Hne. induction m as [ | [k' v'] m IH ]; cbn [rdel rget];
    [ reflexivity | ].
  destruct (String.eqb k k') eqn:E; cbn [rget].
  - apply String.eqb_eq in E. subst k'.
    replace (String.eqb k0 k) with false
      by (symmetry; apply String.eqb_neq; assumption).
    reflexivity.
  - rewrite IH. reflexivity.
Qed.

Lemma ZRem_other (db : Redis) (setKey key k : string) :
  k <> setKey -> rget k (snd (redis_ZRem db setKey key)) = rget k db.
Proof.
  intros Hne. unfold redis_ZRem.
  destruct (rget setKey db) as [[d t | ms] | ]; cbn [snd]; try reflexivity.
  destruct (rdel key ms); cbn [snd].
  - apply rget_rdel_other. assumption.
  - apply rget_rput_other. assumption.
Qed.

Lemma wrap64_le (z : Z) : 0 <= z -> wrap64 z <= z.
Proof.
  intros Hz. unfold wrap64.
  pose proof (Z.mod_le (z + 2 ^ 63) (2 ^ 64)). lia.
Qed.

Lemma StronglySorted_firstn {A : Type} (R : A -> A -> Prop) (n : nat)
    (l : list A) :
  StronglySorted R l -> StronglySorted R (firstn n l).
Proof.
  intros H. revert n. induction H as [ | x l Hl IH Hx ]; intros [ | n ];
    cbn [firstn]; try constructor.
  - apply IH.
  - apply Forall_firstn_of. assumption.
Qed.

Lemma StronglySorted_skipn {A : Type} (R : A -> A -> Prop) (n : nat)
    (l : list A) :
  StronglySorted R l -> StronglySorted R (skipn n l).
Proof.
  intros H. revert n. induction H as [ | x l Hl IH Hx ]; intros [ | n ];
    cbn [skipn]; try constructor; try assumption. apply IH.
Qed.

Section RedisQueries.
Context {codec : JSON}.

Lemma fetch_sound (setKey : string) (filter : QueryFilter)
    (keys : list string) :
  forall (db db' : Redis) (records : list AuditRecord),
    fetch setKey filter keys db = (records, db') ->
    Forall (fun r => matchesFilter r filter = true) records
    /\ forall k, k <> setKey -> rget k db' = rget k db.
Proof.
  induction keys as [ | key rest IH ]; intros db db' records; cbn [fetch].
  - intros H; injection H as <- <-. split; [ constructor | reflexivity ].
  - destruct (redis_Get db key) as [ | e | data ].
    + intros H. destruct (IH _ _ _ H) as [Hm Hk]. split; [ exact Hm | ].
      intros k Hne. rewrite (Hk k Hne). apply ZRem_other. assumption.
    + apply IH.
    + destruct (json_Unmarshal data) as [record | ]; [ | apply IH ].
      destruct (matchesFilter record filter) eqn:Em; cbn [negb];
        [ | apply IH ].
      destruct (fetch setKey filter rest db) as [records0 db0] eqn:Ef.
      intros H; injection H as <- <-.
      destruct (IH _ _ _ Ef) as [Hm Hk].
      split; [ constructor; assumption | exact Hk ].
Qed.

(** X13. Whatever the server holds, when [Query] on the Redis backend
    returns records: they are ordered by timestamp from the greatest down,
    every one matches the filter, there are no more of them than the
    normalized limit, which is at most 1000, and no key of the server
    other than the index has changed. *)
Theorem RedisStorage_Query_sound (ctx : ctx_t) (filter : option QueryFilter)
    (st st' : RedisStorage * Redis) (results : list AuditRecord) :
  RedisStorage_Query ctx filter st = (inl results, st') ->
  fst st' = fst st
  /\ (forall k, k <> keyPrefix (fst st) ++ "index" ->
        rget k (snd st') = rget k (snd st))
  /\ Forall (fun r => matchesFilter r (effective filter) = true) results
  /\ StronglySorted Z.ge (map Timestamp results)
  /\ llen results <= Limit (effective filter) <= 1000.
Proof.
  destruct st as [s db].
  pose proof (Normalize_range
                (match filter with None => DefaultQueryFilter | Some f => f end))
    as [HL HO].
  fold (effective filter) in HL, HO.
  unfold RedisStorage_Query. fold (effective filter). cbn [fst snd].
  destruct (client_err s ctx); [ discriminate | ].
  destruct (redis_ZRevRangeByScore _ _ _ _ _ _) as [keys | e];
    [ | discriminate ].
  assert (forall db0 : Redis,
             (forall k, k <> keyPrefix s ++ "index" -> rget k db0 = rget k db) ->
             (@inl (list AuditRecord) error [], (s, db0)) = (inl results, st') ->
             fst st' = s
             /\ (forall k, k <> keyPrefix s ++ "index" ->
                   rget k (snd st') = rget k db)
             /\ Forall (fun r => matchesFilter r (effective filter) = true)
                  results
             /\ StronglySorted Z.ge (map Timestamp results)
             /\ llen results <= Limit (effective filter) <= 1000) as Hnone.
  { intros db0 Hk H. injection H as <- <-. cbn [fst snd].
    split; [ reflexivity | ]. split; [ exact Hk | ].
    split; [ constructor | ]. split; [ constructor | ].
    unfold llen; cbn; lia. }
  destruct (llen keys =? 0); [ apply Hnone; reflexivity | ].
  destruct (fetch (keyPrefix s ++ "index") (effective filter) keys db)
    as [fetched db'] eqn:Ef.
  destruct (fetch_sound _ _ _ _ _ _ Ef) as [Hm Hk].
  destruct (Offset (effective filter) >=? llen (sort_by newer fetched));
    [ apply Hnone; exact Hk | ].
  intros H. injection H as <- <-. cbn [fst snd].
  split; [ reflexivity | ]. split; [ exact Hk | ].
  assert (Forall (fun r => matchesFilter r (effective filter) = true)
            (sort_by newer fetched)) as Hms.
  { rewrite Forall_forall in *. intros r Hr. apply Hm.
    apply (Permutation_in _ (sort_by_perm newer fetched)). exact Hr. }
  unfold slice.
  split; [ apply Forall_firstn_of, Forall_skipn_of; exact Hms | ].
  split.
  - rewrite <- firstn_map, <- skipn_map.
    apply StronglySorted_firstn, StronglySorted_skipn, sort_newer_sorted.
  - split; [ | lia ].
    assert (wrap64 (Offset (effective filter) + Limit (effective filter))
            <= Offset (effective filter) + Limit (effective filter)) as Hw
        by (apply wrap64_le; lia).
    destruct (wrap64 (Offset (effective filter) + Limit (effective filter))
              >? llen (sort_by newer fetched)) eqn:Eg;
      unfold llen in *; rewrite length_firstn.
    + rewrite Z.gtb_ltb in Eg. apply Z.ltb_lt in Eg. lia.
    + lia.
Qed.

End RedisQueries.

Lemma RedisStorage_Query_sound_witness :
  exists results st',
    RedisStorage_Query context_Background (newest 2) stocked_redis
    = (inl results, st')
    /\ fst st' = fst stocked_redis
    /\ (forall k, k <> keyPrefix (fst stocked_redis) ++ "index" ->
          rget k (snd st') = rget k (snd stocked_redis))
    /\ Forall (fun r => matchesFilter r (effective (newest 2)) = true) results
    /\ StronglySorted Z.ge (map Timestamp results)
    /\ llen results <= Limit (effective (newest 2)) <= 1000.
Proof.
  eexists. eexists. split; [ vm_compute; reflexivity | ].
  apply (RedisStorage_Query_sound context_Background (newest 2) stocked_redis).
  vm_compute. reflexivity.
Defined.

(* ----------------------------------------------------------------- *)
(** ** The Redis backend: cleaning the index *)

Lemma rget_absent {V : Type} (k : string) (m : list (string * V)) :
  ~ In k (map fst m) -> rget k m = None.
Proof.
  induction m as [ | [k' v'] m IH ]; cbn [map fst rget In]; [ reflexivity | ].
  intros H. destruct (String.eqb k k') eqn:E.
  - apply String.eqb_eq in E. subst k'. destruct H. left. reflexivity.
  - apply IH. intros Hin. apply H. right. exact Hin.
Qed.

Lemma rget_present {V : Type} (k : string) (m : list (string * V)) :
  In k (map fst m) -> rget k m <> None.
Proof.
  induction m as [ | [k' v'] m IH ]; cbn [map fst rget In]; [ intros [] | ].
  intros H. destruct (String.eqb k k') eqn:E; [ discriminate | ].
  apply IH. destruct H as [-> | H]; [ | exact H ].
  rewrite String.eqb_refl in E. discriminate.
Qed.

Lemma filter_keeps_all {A : Type} (f : A -> bool) (l : list A) :
  (forall x, In x l -> f x = true) -> filter f l = l.
Proof.
  induction l as [ | x l IH ]; intros H; cbn [filter]; [ reflexivity | ].
  rewrite (H x) by (left; reflexivity).
  rewrite IH by (intros y Hy; apply H; right; exact Hy). reflexivity.
Qed.

(** On a list where every key occurs once, [rdel] takes out every entry
    of the key. *)
Lemma rdel_filter {V : Type} (k : string) (m : list (string * V)) :
  NoDup (map fst m) ->
  rdel k m = filter (fun e => negb (String.eqb k (fst e))) m.
Proof.
  induction m as [ | [k' v'] m IH ]; intros Hnd; cbn [rdel filter fst];
    [ reflexivity | ].
  inversion Hnd as [ | ? ? Hnotin Hnd' ]; subst.
  destruct (String.eqb k k') eqn:E; cbn [negb].
  - apply String.eqb_eq in E. subst k'. symmetry. apply filter_keeps_all.
    intros [k1 v1] Hin. cbn [fst].
    destruct (String.eqb k k1) eqn:E1; [ | reflexivity ].
    apply String.eqb_eq in E1. subst k1. destruct Hnotin.
    apply (in_map fst) in Hin. exact Hin.
  - rewrite IH by assumption. reflexivity.
Qed.

Lemma keys_filter_NoDup {V : Type} (f : string * V -> bool)
    (m : list (string * V)) :
  NoDup (map fst m) -> NoDup (map fst (filter f m)).
Proof.
  induction m as [ | e m IH ]; intros Hnd; cbn [filter map];
    [ constructor | ].
  inversion Hnd as [ | ? ? Hnotin Hnd' ]; subst.
  destruct (f e); cbn [map]; [ | apply IH; assumption ].
  constructor; [ | apply IH; assumption ].
  intros Hin. apply Hnotin. rewrite in_map_iff in *.
  destruct Hin as (x & Hx & Hin). exists x. split; [ exact Hx | ].
  apply filter_In in Hin. tauto.
Qed.

Lemma keys_rput {V : Type} (k : string) (v : V) (m : list (string * V)) :
  rget k m <> None -> map fst (rput k v m) = map fst m.
Proof.
  induction m as [ | [k' v'] m IH ]; cbn [rget rput map fst];
    [ intros H; destruct H; reflexivity | ].
  destruct (String.eqb k k'); cbn [map fst]; [ reflexivity | ].
  intros H. rewrite IH by assumption. reflexivity.
Qed.

(** The length of the matches of a list does not depend on its order. *)
Lemma filter_length_perm {A : Type} (f : A -> bool) (l l' : list A) :
  Permutation l l' ->
  List.length (filter f l) = List.length (filter f l').
Proof.
  induction 1 as [ | x l l' _ IH | x y l | l l' l'' _ IH1 _ IH2 ];
    cbn [filter].
  - reflexivity.
  - destruct (f x); cbn [List.length]; rewrite IH; reflexivity.
  - destruct (f x), (f y); reflexivity.
  - rewrite IH1. exact IH2.
Qed.

(** When every key listed is there, the loop removes nothing. *)
Lemma cleanup_loop_idle (setKey : string) (keys : list string) (db : Redis)
    (removed : Z) :
  (forall k, In k keys -> key_exists db k = true) ->
  cleanup_loop setKey keys db removed = (removed, db).
Proof.
  revert removed. induction keys as [ | k rest IH ]; intros removed H;
    cbn [cleanup_loop]; [ reflexivity | ].
  pose proof (H k (or_introl eq_refl)) as Hk.
  unfold key_exists in Hk. unfold redis_Exists.
  destruct (rget k db); [ | discriminate ]. cbn [Z.eqb].
  apply IH. intros k' Hk'. apply H. right. exact Hk'.
Qed.

(** The loop of [Cleanup] on a key space where every key occurs once,
    for keys of the index: [db0] is the server before the first turn and
    [ms] the members the index has on entry. *)
Lemma cleanup_loop_spec (setKey : string) (db0 : Redis) :
  key_exists db0 setKey = true ->
  forall (keys : list string) (db : Redis) (ms : list (string * Z))
         (removed : Z),
    NoDup keys -> NoDup (map fst ms) -> NoDup (map fst db) ->
    (forall k, In k keys -> In k (map fst ms)) ->
    (rget setKey db = Some (RZSet ms)
     \/ (ms = [] /\ rget setKey db = None)) ->
    (forall k, k <> setKey -> rget k db = rget k db0) ->
    exists db',
      cleanup_loop setKey keys db removed
      = (removed + llen (filter (fun k => negb (key_exists db0 k)) keys), db')
      /\ NoDup (map fst db')
      /\ (let left :=
            filter (fun m => negb (existsb (String.eqb (fst m)) keys
                                   && negb (key_exists db0 (fst m)))) ms in
          rget setKey db' = Some (RZSet left)
          \/ (left = [] /\ rget setKey db' = None))
      /\ forall k, k <> setKey -> rget k db' = rget k db0.
Proof.
  intros Hset0.
  induction keys as [ | key rest IH ];
    intros db ms removed Hks Hms Hdb Hsub Hidx Hother.
  - exists db. cbn [cleanup_loop filter existsb andb negb].
    unfold llen. cbn [List.length Z.of_nat]. rewrite Z.add_0_r.
    split; [ reflexivity | ]. split; [ assumption | ].
    split; [ | exact Hother ].
    rewrite filter_keeps_all by reflexivity. exact Hidx.
  - inversion Hks as [ | ? ? Hnotin Hks' ]; subst.
    assert (In key (map fst ms)) as Hin by (apply Hsub; left; reflexivity).
    assert (rget setKey db = Some (RZSet ms)) as Hfull.
    { destruct Hidx as [H | [-> _]]; [ exact H | destruct Hin ]. }
    cbn [cleanup_loop]. unfold redis_Exists.
    destruct (rget key db) as [v | ] eqn:Eg; cbn [Z.eqb].
    + (* the key is there *)
      assert (key_exists db0 key = true) as Halive.
      { destruct (string_dec key setKey) as [-> | Hk]; [ exact Hset0 | ].
        unfold key_exists. rewrite <- (Hother key Hk), Eg. reflexivity. }
      destruct (IH db ms removed Hks' Hms Hdb
                  (fun k Hk => Hsub k (or_intror Hk)) Hidx Hother)
        as (db' & Hloop & Hnd & Hmem & Hoth).
      exists db'. cbn [filter]. rewrite Halive. cbn [negb].
      split; [ exact Hloop | ]. split; [ exact Hnd | ].
      split; [ | assumption ].
      cbv zeta in *.
      replace (filter _ ms)
        with (filter
                (fun m => negb (existsb (String.eqb (fst m)) rest
                                && negb (key_exists db0 (fst m)))) ms);
        [ exact Hmem | ].
      apply filter_ext_in. intros m Hm. cbn [existsb].
      destruct (String.eqb (fst m) key) eqn:E; [ | reflexivity ].
      apply String.eqb_eq in E. rewrite E, Halive. cbn.
      rewrite andb_false_r. reflexivity.
    + (* the key is gone *)
      assert (key <> setKey) as Hk by (intros ->; congruence).
      assert (key_exists db0 key = false) as Hdead
          by (unfold key_exists; rewrite <- (Hother key Hk), Eg; reflexivity).
      set (ms' := filter (fun e => negb (String.eqb key (fst e))) ms).
      assert (rdel key ms = ms') as Hdel by (apply rdel_filter; assumption).
      assert (exists db1,
                 redis_ZRem db setKey key = (None, db1)
                 /\ NoDup (map fst db1)
                 /\ (rget setKey db1 = Some (RZSet ms')
                     \/ (ms' = [] /\ rget setKey db1 = None))
                 /\ forall k, k <> setKey -> rget k db1 = rget k db0)
        as (db1 & -> & Hnd1 & Hidx1 & Hother1).
      { unfold redis_ZRem. rewrite Hfull, Hdel.
        destruct ms' as [ | m1 rest1 ] eqn:Em.
        - exists (rdel setKey db). split; [ reflexivity | ].
          assert (rdel setKey db
                  = filter (fun e => negb (String.eqb setKey (fst e))) db)
            as Hd by (apply rdel_filter; assumption).
          split; [ rewrite Hd; apply keys_filter_NoDup; assumption | ].
          split.
          + right. split; [ reflexivity | ].
            apply rget_absent.
            rewrite Hd, in_map_iff. intros (x & Hx & Hxin).
            apply filter_In in Hxin. destruct Hxin as [_ Hxin].
            rewrite <- Hx, String.eqb_refl in Hxin. discriminate.
          + intros k Hkne. rewrite rget_rdel_other by assumption.
            apply Hother. assumption.
        - exists (rput setKey (RZSet (m1 :: rest1)) db).
          split; [ reflexivity | ].
          split; [ rewrite keys_rput by (rewrite Hfull; discriminate);
                   assumption | ].
          split; [ left; apply rget_rput_same | ].
          intros k Hkne. rewrite rget_rput_other by assumption.
          apply Hother. assumption. }
      assert (forall k, In k rest -> In k (map fst ms')) as Hsub'.
      { intros k Hkin. pose proof (Hsub k (or_intror Hkin)) as Hkm.
        rewrite in_map_iff in *. destruct Hkm as (x & Hx & Hxin).
        exists x. split; [ exact Hx | ]. unfold ms'. apply filter_In.
        split; [ exact Hxin | ].
        destruct (String.eqb key (fst x)) eqn:E; [ | reflexivity ].
        apply String.eqb_eq in E. destruct Hnotin. congruence. }
      destruct (IH db1 ms' (removed + 1) Hks'
                  (keys_filter_NoDup _ _ Hms) Hnd1 Hsub' Hidx1 Hother1)
        as (db' & Hloop & Hnd & Hmem & Hoth).
      exists db'. cbn [filter]. rewrite Hdead. cbn [negb].
      split.
      { rewrite Hloop. f_equal. unfold llen. cbn [List.length]. lia. }
      split; [ exact Hnd | ].
      split; [ | assumption ].
      cbv zeta in *.
      replace (filter _ ms)
        with (filter
                (fun m => negb (existsb (String.eqb (fst m)) rest
                                && negb (key_exists db0 (fst m)))) ms');
        [ exact Hmem | ].
      unfold ms'. clear - Hdead.
      induction ms as [ | m ms IHms ]; cbn [filter existsb];
        [ reflexivity | ].
      rewrite (String.eqb_sym key (fst m)).
      destruct (String.eqb (fst m) key) eqn:E; cbn [negb orb].
      * apply String.eqb_eq in E. rewrite E, Hdead. cbn [negb andb].
        exact IHms.
      * cbn [filter]. rewrite IHms. reflexivity.
Qed.

Lemma filter_map_length {A B : Type} (f : B -> bool) (g : A -> B)
    (l : list A) :
  List.length (filter f (map g l))
  = List.length (filter (fun x => f (g x)) l).
Proof.
  induction l as [ | x l IH ]; cbn [map filter]; [ reflexivity | ].
  destruct (f (g x)); cbn [List.length]; rewrite IH; reflexivity.
Qed.

(** X14. [Cleanup] on a server where every key occurs once and the
    members of the index are distinct, with an open client: it returns
    the number of members of the index whose key is gone and no error; the
    index then holds exactly the members whose key is there, in the order
    and with the scores they had; no other key has changed; and a second
    [Cleanup] returns 0 and changes nothing. *)
Theorem Cleanup_prunes_the_index (s : RedisStorage) (db : Redis)
    (ms : list (string * Z)) :
  client_closed s = false ->
  NoDup (map fst db) ->
  rget (keyPrefix s ++ "index") db = Some (RZSet ms) ->
  NoDup (map fst ms) ->
  exists db',
    RedisStorage_Cleanup context_Background (s, db)
    = ((llen (filter (fun m => negb (key_exists db (fst m))) ms), None),
       (s, db'))
    /\ index_members (keyPrefix s ++ "index") db'
       = filter (fun m => key_exists db (fst m)) ms
    /\ (forall k, k <> keyPrefix s ++ "index" -> rget k db' = rget k db)
    /\ RedisStorage_Cleanup context_Background (s, db') = ((0, None), (s, db')).
Proof.
  intros Hopen Hdb Hidx Hms.
  set (setKey := keyPrefix s ++ "index") in *.
  pose proof (sort_by_perm zrange_before ms) as Hperm.
  assert (key_exists db setKey = true) as Hset0
      by (unfold key_exists; rewrite Hidx; reflexivity).
  destruct (cleanup_loop_spec setKey db Hset0
              (map fst (sort_by zrange_before ms)) db ms 0)
    as (db' & Hloop & Hnd & Hmem & Hoth).
  { apply (Permutation_NoDup (l := map fst ms)); [ | assumption ].
    apply Permutation_map. symmetry. exact Hperm. }
  { assumption. }
  { assumption. }
  { intros k Hk. apply (Permutation_in k (Permutation_map fst Hperm)).
    exact Hk. }
  { left. exact Hidx. }
  { reflexivity. }
  cbv zeta in Hmem.
  assert (filter (fun m => negb (existsb (String.eqb (fst m))
                                   (map fst (sort_by zrange_before ms))
                                 && negb (key_exists db (fst m)))) ms
          = filter (fun m => key_exists db (fst m)) ms) as Hleft.
  { apply filter_ext_in. intros m Hm.
    assert (existsb (String.eqb (fst m))
              (map fst (sort_by zrange_before ms)) = true) as ->.
    { apply existsb_exists. exists (fst m).
      split; [ | apply String.eqb_refl ].
      apply in_map. apply (Permutation_in m (Permutation_sym Hperm)).
      exact Hm. }
    cbn [andb]. apply negb_involutive. }
  rewrite Hleft in Hmem.
  exists db'. unfold RedisStorage_Cleanup, client_err.
  rewrite Hopen. cbn [ctx_Err ctx_done context_Background].
  fold setKey. unfold redis_ZRange_all at 1. rewrite Hidx, Hloop.
  split.
  { rewrite Z.add_0_l. unfold llen.
    rewrite filter_map_length.
    rewrite (filter_length_perm _ _ _ Hperm). reflexivity. }
  split.
  { unfold index_members.
    destruct Hmem as [-> | [-> ->]]; reflexivity. }
  split; [ exact Hoth | ].
  unfold redis_ZRange_all.
  destruct Hmem as [Hsome | [_ Hnone]].
  - rewrite Hsome. rewrite cleanup_loop_idle; [ reflexivity | ].
    intros k Hk.
    apply (Permutation_in k
             (Permutation_map fst (sort_by_perm zrange_before _))) in Hk.
    apply in_map_iff in Hk. destruct Hk as (m & <- & Hm).
    apply filter_In in Hm. destruct Hm as [_ Hm].
    destruct (string_dec (fst m) setKey) as [E | E].
    + unfold key_exists. rewrite E, Hsome. reflexivity.
    + unfold key_exists in *. rewrite (Hoth _ E). exact Hm.
  - rewrite Hnone. reflexivity.
Qed.

Lemma Cleanup_witness :
  exists db',
    RedisStorage_Cleanup context_Background stale_redis
    = ((llen (filter (fun m => negb (key_exists (snd stale_redis) (fst m)))
                [("audit:1700000001", 1700000001);
                 ("audit:1700000002", 1700000002);
                 ("audit:1700000003", 1700000003)]), None),
       (fst stale_redis, db'))
    /\ index_members (keyPrefix (fst stale_redis) ++ "index") db'
       = filter (fun m => key_exists (snd stale_redis) (fst m))
           [("audit:1700000001", 1700000001);
            ("audit:1700000002", 1700000002);
            ("audit:1700000003", 1700000003)]
    /\ (forall k, k <> keyPrefix (fst stale_redis) ++ "index" ->
          rget k db' = rget k (snd stale_redis))
    /\ RedisStorage_Cleanup context_Background (fst stale_redis, db')
       = ((0, None), (fst stale_redis, db')).
Proof.
  apply (Cleanup_prunes_the_index (fst stale_redis) (snd stale_redis)).
  - reflexivity.
  - cbn. repeat constructor; cbn; intuition discriminate.
  - reflexivity.
  - cbn. repeat constructor; cbn; intuition discriminate.
Defined.

(* ----------------------------------------------------------------- *)
(** ** Masking an address *)

Lemma prefix_of_app (x y : string) :
  prefix_of (String.length x) (x ++ y) = x.
Proof.
  unfold prefix_of. induction x as [ | c x IH ]; cbn [String.length append].
  - destruct y; reflexivity.
  - cbn [substring]. rewrite IH. reflexivity.
Qed.

Lemma substring_whole (y : string) : substring 0 (String.length y) y = y.
Proof.
  induction y as [ | c y IH ]; cbn [String.length substring];
    [ reflexivity | rewrite IH; reflexivity ].
Qed.

Lemma suffix_from_app (x y : string) :
  suffix_from (String.length x) (x ++ y) = y.
Proof.
  unfold suffix_from.
  replace (String.length (x ++ y) - String.length x)%nat
    with (String.length y).
  - induction x as [ | c x IH ]; cbn [String.length append substring];
      [ apply substring_whole | exact IH ].
  - pose proof (len_app x y) as H. unfold len in H. lia.
Qed.

Lemma scan_dots_free (s : string) (i firstDot lastDot : Z) :
  dot_free s = true -> scan_dots s i firstDot lastDot = (firstDot, lastDot).
Proof.
  revert i. induction s as [ | c s IH ]; intros i; cbn [dot_free scan_dots];
    [ reflexivity | ].
  destruct (Ascii.eqb c dot); cbn [negb andb]; [ discriminate | apply IH ].
Qed.

Lemma scan_dots_app (s1 s2 : string) :
  forall i firstDot lastDot,
    scan_dots (s1 ++ s2) i firstDot lastDot
    = scan_dots s2 (i + len s1)
        (fst (scan_dots s1 i firstDot lastDot))
        (snd (scan_dots s1 i firstDot lastDot)).
Proof.
  induction s1 as [ | c s1 IH ]; intros i firstDot lastDot;
    cbn [append scan_dots].
  - unfold len. cbn. rewrite Z.add_0_r. reflexivity.
  - rewrite len_String.
    destruct (Ascii.eqb c dot); rewrite IH; f_equal; lia.
Qed.

Lemma scan_dots_first (s : string) :
  forall i firstDot lastDot,
    firstDot <> -1 -> fst (scan_dots s i firstDot lastDot) = firstDot.
Proof.
  induction s as [ | c s IH ]; intros i firstDot lastDot Hf;
    cbn [scan_dots]; [ reflexivity | ].
  destruct (Ascii.eqb c dot); [ | apply IH; assumption ].
  replace (firstDot =? -1) with false
    by (symmetry; apply Z.eqb_neq; assumption).
  apply IH. assumption.
Qed.

(** X15. [MaskIP] keeps the ends and nothing else.  Of an address of at
    least 7 bytes with two dots or more it returns what stands before the
    first dot and what stands after the last one, with [.***.] between
    them, whatever stood between the two dots.  Of an address that is not
    empty and holds no dot, or is shorter than 7 bytes, it returns its
    first four and last four bytes around four stars when it is longer
    than 8 bytes, and four stars alone otherwise. *)
Theorem MaskIP_keeps_the_ends :
  (forall first middle last,
     dot_free first = true -> dot_free last = true ->
     7 <= len (first ++ "." ++ middle ++ "." ++ last) ->
     MaskIP (first ++ "." ++ middle ++ "." ++ last)
     = first ++ ".***." ++ last)
  /\ (forall ip,
        ip <> EmptyString -> dot_free ip = true \/ len ip < 7 ->
        MaskIP ip
        = if len ip >? 8
          then prefix_of 4 ip ++ "****"
               ++ suffix_from (String.length ip - 4) ip
          else "****").
Proof.
  split.
  - intros a mid d Ha Hd Hlen.
    set (ip := a ++ "." ++ mid ++ "." ++ d) in *.
    assert (scan_dots ip 0 (-1) (-1) = (len a, len a + 1 + len mid)) as Hscan.
    { unfold ip. rewrite scan_dots_app, (scan_dots_free a) by assumption.
      cbn [fst snd]. change ("." ++ mid ++ "." ++ d)
        with (String dot (mid ++ "." ++ d)).
      cbn [scan_dots]. rewrite Ascii.eqb_refl, Z.eqb_refl, Z.add_0_l.
      rewrite scan_dots_app.
      rewrite scan_dots_first by (pose proof (len_nonneg a); lia).
      change ("." ++ d) with (String dot d).
      cbn [scan_dots]. rewrite Ascii.eqb_refl.
      replace (len a =? -1) with false
        by (symmetry; apply Z.eqb_neq; pose proof (len_nonneg a); lia).
      rewrite scan_dots_free by assumption. f_equal; lia. }
    unfold MaskIP.
    replace (String.eqb ip EmptyString) with false
      by (symmetry; apply String.eqb_neq; intros E; rewrite E in Hlen;
          unfold len in Hlen; cbn in Hlen; lia).
    replace (len ip >=? 7) with true
      by (symmetry; rewrite Z.geb_leb; apply Z.leb_le; assumption).
    rewrite Hscan.
    replace (len a =? -1) with false
      by (symmetry; apply Z.eqb_neq; pose proof (len_nonneg a); lia).
    replace (len a + 1 + len mid =? len a) with false
      by (symmetry; apply Z.eqb_neq; pose proof (len_nonneg mid); lia).
    cbn [negb andb].
    assert (ip = (a ++ ".") ++ (mid ++ "." ++ d)) as E1
        by (unfold ip; rewrite <- append_assoc; reflexivity).
    assert (ip = (a ++ "." ++ mid) ++ ("." ++ d)) as E2
        by (unfold ip; rewrite <- !append_assoc; reflexivity).
    replace (Z.to_nat (len a + 1)) with (String.length (a ++ "."))
      by (pose proof (len_app a ".") as H; unfold len in *; cbn in *; lia).
    replace (Z.to_nat (len a + 1 + len mid))
      with (String.length (a ++ "." ++ mid))
      by (pose proof (len_app a ("." ++ mid)) as H;
          pose proof (len_app "." mid) as H';
          unfold len in *; cbn in *; lia).
    rewrite E1 at 1. rewrite prefix_of_app.
    rewrite E2. rewrite suffix_from_app.
    rewrite !append_assoc. reflexivity.
  - intros ip Hne Hcase. unfold MaskIP.
    replace (String.eqb ip EmptyString) with false
      by (symmetry; apply String.eqb_neq; assumption).
    destruct (len ip >=? 7) eqn:E7; [ | reflexivity ].
    destruct Hcase as [Hfree | Hshort].
    + rewrite scan_dots_free by assumption. reflexivity.
    + rewrite Z.geb_leb in E7. apply Z.leb_le in E7. lia.
Qed.

Lemma MaskIP_witness :
  MaskIP "192.168.1.100" = "192.***.100"
  /\ MaskIP "2001:db8::1" = "2001****8::1"
  /\ MaskIP "1.2.3" = "****".
Proof.
  destruct MaskIP_keeps_the_ends as [Hdots Hnone].
  split; [ | split ].
  - apply (Hdots "192" "168.1" "100"); [ reflexivity | reflexivity | ].
    vm_compute. discriminate.
  - apply (Hnone "2001:db8::1"); [ discriminate | left; reflexivity ].
  - apply (Hnone "1.2.3"); [ discriminate | right; reflexivity ].
Defined.

(* ----------------------------------------------------------------- *)
(** ** Opening a log that is there *)




(* ----------------------------------------------------------------- *)
(** ** The database backend: the address of the database *)

Lemma substring_length_le (n : nat) (s : string) :
  (String.length (substring 0 n s) <= n)%nat.
Proof.
  revert s. induction n as [ | n IH ]; intros [ | c s ];
    cbn [substring String.length]; try lia.
  specialize (IH s). lia.
Qed.

(** X17. [NewDatabaseStorageWithConfig] compares the first 10 bytes of
    the address with the 11 bytes of [postgres://]: an address that begins
    with [postgres://] is refused as an unsupported format, before any
    connection is asked for, and a storage that is returned is one of type
    [mysql] for an address that begins with [mysql://]. *)
Theorem NewDatabaseStorageWithConfig_takes_mysql_only
    (connect : string -> string -> DB + error)
    (config : option DatabaseConfig) :
  (forall rest,
     NewDatabaseStorageWithConfig connect ("postgres://" ++ rest) config
     = (inr "unsupported database URL format, must start with postgres:// or mysql://",
        None))
  /\ (forall databaseURL s d,
        NewDatabaseStorageWithConfig connect databaseURL config = (inl s, d) ->
        dbType s = "mysql" /\ prefix_of 8 databaseURL = "mysql://").
Proof.
  split.
  - intros rest. unfold NewDatabaseStorageWithConfig.
    change (prefix_of 10 ("postgres://" ++ rest)) with "postgres:/".
    change (prefix_of 8 ("postgres://" ++ rest)) with "postgres".
    change (String.eqb "postgres:/" "postgres://") with false.
    change (String.eqb "postgres" "mysql://") with false.
    rewrite !andb_false_r. reflexivity.
  - intros url s d. unfold NewDatabaseStorageWithConfig.
    destruct (String.eqb (prefix_of 10 url) "postgres://") eqn:E10.
    { apply String.eqb_eq in E10.
      pose proof (substring_length_le 10 url) as Hle.
      unfold prefix_of in E10. rewrite E10 in Hle. cbn in Hle. lia. }
    rewrite andb_false_r.
    destruct ((len url >=? 8) && String.eqb (prefix_of 8 url) "mysql://")
      eqn:E8; [ | discriminate ].
    apply andb_true_iff in E8. destruct E8 as [_ E8].
    apply String.eqb_eq in E8.
    destruct (connect "mysql" (suffix_from 8 url)) as [d0 | e];
      [ | discriminate ].
    destruct (createTable _) as [[e | ] d1]; [ discriminate | ].
    intros H. injection H as <- _. split; [ reflexivity | exact E8 ].
Qed.

Lemma NewDatabaseStorageWithConfig_witness :
  NewDatabaseStorageWithConfig no_connection
    ("postgres://" ++ "user:pass@localhost/db") None
  = (inr "unsupported database URL format, must start with postgres:// or mysql://",
     None).
Proof.
  apply (proj1 (NewDatabaseStorageWithConfig_takes_mysql_only
                  no_connection None)).
Defined.

(* ----------------------------------------------------------------- *)
(** ** The database backend: the statements of [createTable] *)

Lemma exec_statements_spec (statements : list string) :
  forall d : DB,
  exists ran,
    db_executed (snd (exec_statements statements d))
    = (db_executed d ++ ran)%list
    /\ db_answer (snd (exec_statements statements d)) = db_answer d
    /\ Forall (fun stmt => stmt <> EmptyString
                           /\ In stmt (map TrimSpace statements)) ran
    /\ match fst (exec_statements statements d) with
       | None => Forall (fun stmt => db_answer d stmt = None) ran
       | Some e =>
           exists before last,
             ran = (before ++ [last])%list
             /\ Forall (fun stmt => db_answer d stmt = None) before
             /\ db_answer d last = Some e
       end.
Proof.
  induction statements as [ | stmt rest IH ]; intros d;
    cbn [exec_statements].
  - exists []. cbn [fst snd]. rewrite app_nil_r.
    repeat split; constructor.
  - destruct (String.eqb (TrimSpace stmt) EmptyString) eqn:E.
    + destruct (IH d) as (ran & Hran & Hans & Hall & Hres).
      exists ran. repeat split; try assumption.
      eapply Forall_impl; [ | exact Hall ].
      cbn [map]. intros a [Ha Hin]. split; [ exact Ha | right; exact Hin ].
    + apply String.eqb_neq in E. unfold ExecContext.
      destruct (db_answer d (TrimSpace stmt)) as [e | ] eqn:Ea.
      * exists [TrimSpace stmt]. cbn [fst snd db_executed db_answer].
        split; [ reflexivity | ]. split; [ reflexivity | ].
        split; [ constructor; [ | constructor ];
                 split; [ exact E | left; reflexivity ] | ].
        exists [], (TrimSpace stmt).
        split; [ reflexivity | ]. split; [ constructor | exact Ea ].
      * destruct (IH {| db_answer := db_answer d;
                        db_executed := (db_executed d ++ [TrimSpace stmt])%list |})
          as (ran & Hran & Hans & Hall & Hres).
        cbn [db_executed db_answer] in *.
        exists (TrimSpace stmt :: ran).
        split; [ rewrite Hran, <- app_assoc; reflexivity | ].
        split; [ exact Hans | ].
        split.
        { constructor; [ split; [ exact E | left; reflexivity ] | ].
          eapply Forall_impl; [ | exact Hall ].
          cbn [map]. intros a [Ha Hin].
          split; [ exact Ha | right; exact Hin ]. }
        destruct (fst (exec_statements rest _)) as [e | ].
        -- destruct Hres as (before & last & -> & Hb & Hl).
           exists (TrimSpace stmt :: before), last.
           split; [ reflexivity | ].
           split; [ constructor; assumption | exact Hl ].
        -- constructor; assumption.
Qed.

(** X18. [createTable] stops at the first statement the engine rejects.
    Whatever the engine and the table name: the statements it executes
    are added to those executed before, none of them is empty; when it
    returns nil the engine accepted each of them; when it returns an
    error, either the type of database is none of the three and nothing
    was executed, or the error is that of the last statement executed and
    the engine accepted all those before it. *)
Theorem createTable_stops_at_the_first_error (s : DatabaseStorage) :
  exists ran,
    db_executed (snd (createTable s)) = (db_executed (db s) ++ ran)%list
    /\ db_answer (snd (createTable s)) = db_answer (db s)
    /\ Forall (fun stmt => stmt <> EmptyString) ran
    /\ match fst (createTable s) with
       | None => Forall (fun stmt => db_answer (db s) stmt = None) ran
       | Some e =>
           (ran = []
            /\ e = "unsupported database type: " ++ dbType s
            /\ dbType s <> "postgres" /\ dbType s <> "mysql"
            /\ dbType s <> "sqlite")
           \/ exists before last,
                ran = (before ++ [last])%list
                /\ Forall (fun stmt => db_answer (db s) stmt = None) before
                /\ db_answer (db s) last = Some e
       end.
Proof.
  assert (forall sql,
             exists ran,
               db_executed
                 (snd (exec_statements (split_on semicolon EmptyString sql)
                         (db s)))
               = (db_executed (db s) ++ ran)%list
               /\ db_answer
                    (snd (exec_statements (split_on semicolon EmptyString sql)
                            (db s))) = db_answer (db s)
               /\ Forall (fun stmt => stmt <> EmptyString) ran
               /\ match fst (exec_statements
                               (split_on semicolon EmptyString sql) (db s)) with
                  | None =>
                      Forall (fun stmt => db_answer (db s) stmt = None) ran
                  | Some e =>
                      (ran = []
                       /\ e = "unsupported database type: " ++ dbType s
                       /\ dbType s <> "postgres" /\ dbType s <> "mysql"
                       /\ dbType s <> "sqlite")
                      \/ exists before last,
                           ran = (before ++ [last])%list
                           /\ Forall (fun stmt => db_answer (db s) stmt = None)
                                before
                           /\ db_answer (db s) last = Some e
                  end) as Hrun.
  { intros sql.
    destruct (exec_statements_spec (split_on semicolon EmptyString sql) (db s))
      as (ran & Hran & Hans & Hall & Hres).
    exists ran. split; [ exact Hran | ]. split; [ exact Hans | ].
    split; [ eapply Forall_impl; [ | exact Hall ]; intros a [Ha _]; exact Ha | ].
    destruct (fst (exec_statements _ _)); [ right; exact Hres | exact Hres ]. }
  unfold createTable.
  destruct (String.eqb (dbType s) "postgres") eqn:E1; [ apply Hrun | ].
  destruct (String.eqb (dbType s) "mysql") eqn:E2; [ apply Hrun | ].
  destruct (String.eqb (dbType s) "sqlite") eqn:E3; [ apply Hrun | ].
  apply String.eqb_neq in E1, E2, E3.
  exists []. cbn [fst snd]. rewrite app_nil_r.
  split; [ reflexivity | ]. split; [ reflexivity | ].
  split; [ constructor | ].
  left. repeat split; assumption.
Qed.

(* ----------------------------------------------------------------- *)
(** ** What a filter matches *)

Lemma differs_false (a b : string) : differs a b = false <-> a = b.
Proof.
  unfold differs. rewrite negb_false_iff. apply String.eqb_eq.
Qed.

Lemma nonempty_false (a : string) : nonempty a = false <-> a = EmptyString.
Proof.
  unfold nonempty. rewrite negb_false_iff. apply String.eqb_eq.
Qed.

Lemma string_test (a b : string) :
  nonempty b && differs a b = false <-> (b = EmptyString \/ a = b).
Proof.
  rewrite andb_false_iff, nonempty_false, differs_false. reflexivity.
Qed.

(** X19. What [matchesFilter] accepts: a record matches when each text
    field of the filter is empty or equal to the record's, the timestamp
    is not before [StartTime] when that is positive and not after
    [EndTime] when that is positive; the bounds are inclusive and a bound
    that is zero or negative excludes nothing.  [Limit] and [Offset] play
    no part, and [Normalize] never changes what matches. *)
Theorem matchesFilter_spec (record : AuditRecord) (filter : QueryFilter) :
  (matchesFilter record filter = true <->
   (qEventType filter = EmptyString \/ EventType record = qEventType filter)
   /\ (qUserID filter = EmptyString \/ UserID record = qUserID filter)
   /\ (qChallengeID filter = EmptyString
       \/ ChallengeID record = qChallengeID filter)
   /\ (qSessionID filter = EmptyString \/ SessionID record = qSessionID filter)
   /\ (qChannel filter = EmptyString \/ Channel record = qChannel filter)
   /\ (qResult filter = EmptyString \/ Result record = qResult filter)
   /\ (qIP filter = EmptyString \/ IP record = qIP filter)
   /\ (qStartTime filter <= 0 \/ qStartTime filter <= Timestamp record)
   /\ (qEndTime filter <= 0 \/ Timestamp record <= qEndTime filter))
  /\ (forall limit offset,
        matchesFilter record (WithOffset offset (WithLimit limit filter))
        = matchesFilter record filter)
  /\ matchesFilter record (Normalize filter) = matchesFilter record filter.
Proof.
  split; [ | split; [ reflexivity | apply matchesFilter_Normalize ] ].
  rewrite <- !string_test.
  assert ((qStartTime filter >? 0) && (Timestamp record <? qStartTime filter)
          = false
          <-> (qStartTime filter <= 0
               \/ qStartTime filter <= Timestamp record)) as <-.
  { rewrite andb_false_iff, Z.gtb_ltb, !Z.ltb_ge. reflexivity. }
  assert ((qEndTime filter >? 0) && (Timestamp record >? qEndTime filter)
          = false
          <-> (qEndTime filter <= 0 \/ Timestamp record <= qEndTime filter))
    as <-.
  { rewrite andb_false_iff, !Z.gtb_ltb, !Z.ltb_ge. reflexivity. }
  unfold matchesFilter.
  repeat match goal with
         | |- context [if ?c then false else _] => destruct c
         end;
    intuition discriminate.
Qed.
